(** * Webhook transaction processor ([app.py])

    A shallow embedding of the intake handler, the settlement worker, the
    status query and the startup hook of [app.py], together with a model of
    the MongoDB collection they share, and the properties of the
    specification stated over them.

    Layout:
    - Python values, dictionaries, strings, timestamps and exceptions;
    - the pydantic models [WebhookRequest] and [TransactionResponse];
    - the effects of the program (logger, clock, store, threads) as the
      commands of a small program monad [Py] with [try_except];
    - the functions of [app.py], written in that monad;
    - the semantics: the collection, the world, the execution of a command,
      of a handler and of a thread, and traces of events;
    - the vocabulary of the properties: the states of a worker, the
      handlers as transitions, the steps of the collection, records,
      the clock, counting;
    - the properties: execution of the program, invariants of the
      collection along traces, and the theorems on intake, validation,
      failures, startup, the status query, the life of a record,
      timestamps and the worker. *)

From Stdlib Require Import ZArith Ascii String Floats.
From stdpp Require Import base decidable option list strings gmap.

Local Open Scope string_scope.
Local Open Scope list_scope.

(** ** Python values *)

(** A [float] is an IEEE 754 binary64 number, as in Python. Its Leibniz
    equality is decided through the specification floats. *)
#[global] Instance spec_float_eq_dec : EqDecision spec_float.
Proof. solve_decision. Defined.

#[global] Instance float_eq_dec : EqDecision float.
Proof.
  intros x y. destruct (decide (Prim2SF x = Prim2SF y)) as [H|H].
  - left. apply Prim2SF_inj, H.
  - right. intros ->. apply H. reflexivity.
Defined.

(** The values that occur in the documents and bodies of the program:
    [None], [str], [float] and the [ObjectId] the driver adds on insert. *)
Inductive value :=
| VNone
| VStr (s : string)
| VFloat (f : float)
| VObjectId (n : nat).

#[global] Instance value_eq_dec : EqDecision value.
Proof. solve_decision. Defined.

(** A Python [dict] with string keys. *)
Abbreviation dict := (gmap string value).

(** [d.get(k)]: a missing key reads as [None], which is also how MongoDB
    compares a missing field. *)
Definition get (k : string) (d : dict) : value := default VNone (d !! k).

(** ** Strings *)

(** [str.lower()] on the ASCII letters. *)
Definition lower_char (c : ascii) : ascii :=
  let n := nat_of_ascii c in
  if (65 <=? n)%nat && (n <=? 90)%nat then ascii_of_nat (n + 32) else c.

Fixpoint lower (s : string) : string :=
  match s with
  | EmptyString => EmptyString
  | String c s' => String (lower_char c) (lower s')
  end.

(** [needle in hay] for two strings. *)
Fixpoint contains (needle hay : string) : bool :=
  String.prefix needle hay
  || match hay with
     | EmptyString => false
     | String _ hay' => contains needle hay'
     end.

(** Decimal digits of a number, padded with zeros on the left to [width]
    characters (the [%0wd] of [isoformat]). *)
Definition digit (n : N) : ascii := ascii_of_N (48 + n mod 10).

Fixpoint zfill (width : nat) (n : N) : string :=
  match width with
  | O => EmptyString
  | S width' => zfill width' (n / 10) +:+ String (digit n) EmptyString
  end.

(** ** Timestamps *)

(** A naive [datetime], as [datetime.utcnow()] returns it. *)
Record datetime := {
  year : N; month : N; day : N;
  hour : N; minute : N; second : N; microsecond : N
}.

(** [datetime.isoformat()]: the fraction is printed only when it is not 0. *)
Definition isoformat (t : datetime) : string :=
  zfill 4 (year t) +:+ "-" +:+ zfill 2 (month t) +:+ "-" +:+ zfill 2 (day t)
  +:+ "T" +:+ zfill 2 (hour t) +:+ ":" +:+ zfill 2 (minute t)
  +:+ ":" +:+ zfill 2 (second t)
  +:+ (if (microsecond t =? 0)%N then EmptyString
       else "." +:+ zfill 6 (microsecond t)).

(** The text stored in [created_at] and [processed_at]. *)
Definition timestamp (t : datetime) : string := isoformat t +:+ "Z".

(** Python orders naive datetimes field by field. *)
Definition fields_of (t : datetime) : list N :=
  [year t; month t; day t; hour t; minute t; second t; microsecond t].

Fixpoint lex_le (xs ys : list N) : bool :=
  match xs, ys with
  | [], _ => true
  | _ :: _, [] => false
  | x :: xs', y :: ys' =>
      (x <? y)%N || ((x =? y)%N && lex_le xs' ys')
  end.

Definition datetime_le (t1 t2 : datetime) : bool :=
  lex_le (fields_of t1) (fields_of t2).

(** ** Exceptions *)

(** The subclasses of [Exception] the program tells apart, and all the
    others, by class name and text. *)
Inductive exn :=
| HTTPException (status_code : nat) (detail : string)
| DuplicateKeyError (errmsg : string)
| ValidationError (errmsg : string)
| OtherException (class : string) (text : string).

(** [str(e)]. *)
Definition str (e : exn) : string :=
  match e with
  | HTTPException status_code detail =>
      zfill 3 (N.of_nat status_code) +:+ ": " +:+ detail
  | DuplicateKeyError errmsg => errmsg
  | ValidationError errmsg => errmsg
  | OtherException _ text => text
  end.

Definition HTTP_202_ACCEPTED : nat := 202.
Definition HTTP_404_NOT_FOUND : nat := 404.
Definition HTTP_500_INTERNAL_SERVER_ERROR : nat := 500.

(** ** The pydantic models *)

(** One entry of a pydantic validation error: the field and the kind. *)
Inductive error_type :=
| missing | string_type | float_type | float_parsing
| greater_than | string_too_short | string_too_long.

Definition validation_errors := list (string * error_type).

(** A required [str] field. *)
Definition check_str (k : string) (body : dict) : validation_errors :=
  match body !! k with
  | None => [(k, missing)]
  | Some (VStr _) => []
  | Some _ => [(k, string_type)]
  end.

(** A [str] is held as the bytes of its UTF-8 encoding. [len] is the
    number of its code points: the bytes that do not continue a code point
    (the ones that are not of the form 10xxxxxx). *)
Definition is_continuation (c : ascii) : bool :=
  (128 <=? nat_of_ascii c)%nat && (nat_of_ascii c <? 192)%nat.

Fixpoint len (s : string) : nat :=
  match s with
  | EmptyString => 0
  | String c s' => (if is_continuation c then 0 else 1) + len s'
  end.

(** The value a [float] field gets from a value of the body. A number is
    taken as it is. A string is converted by the parser of pydantic, which
    is the parameter [str_as_float] (the float the string stands for, if
    it stands for one). *)
Definition as_float (str_as_float : string → option float) (v : value)
  : option float :=
  match v with
  | VFloat f => Some f
  | VStr s => str_as_float s
  | _ => None
  end.

(** [Field(..., gt=0)] on a [float]. *)
Definition check_gt0 (str_as_float : string → option float) (k : string)
  (body : dict) : validation_errors :=
  match body !! k with
  | None => [(k, missing)]
  | Some v =>
      match as_float str_as_float v with
      | Some f => if (0 <? f)%float then [] else [(k, greater_than)]
      | None =>
          match v with
          | VStr _ => [(k, float_parsing)]
          | _ => [(k, float_type)]
          end
      end
  end.

(** [Field(..., min_length=lo, max_length=hi)] on a [str]. *)
Definition check_length (lo hi : nat) (k : string) (body : dict)
  : validation_errors :=
  match body !! k with
  | None => [(k, missing)]
  | Some (VStr s) =>
      if (len s <? lo)%nat then [(k, string_too_short)]
      else if (hi <? len s)%nat then [(k, string_too_long)]
      else []
  | Some _ => [(k, string_type)]
  end.

Module WebhookRequest.
Record t := {
  transaction_id : string;
  source_account : string;
  destination_account : string;
  amount : float;
  currency : string
}.

(** The model built from the keys of the parsed JSON body: every field is
    checked and the errors are collected. A JSON number is the [float] it
    converts to, and a string given for the [float] field is converted by
    the parser [str_as_float]. *)
Definition validate (str_as_float : string → option float) (body : dict)
  : validation_errors + t :=
  let errors :=
    (check_str "transaction_id" body ++ check_str "source_account" body
     ++ check_str "destination_account" body
     ++ check_gt0 str_as_float "amount" body
     ++ check_length 3 3 "currency" body)%list in
  match errors, body !! "transaction_id", body !! "source_account",
        body !! "destination_account",
        body !! "amount" ≫= as_float str_as_float,
        body !! "currency" with
  | [], Some (VStr i), Some (VStr s), Some (VStr d), Some a,
    Some (VStr c) =>
      inr {| transaction_id := i; source_account := s;
             destination_account := d; amount := a; currency := c |}
  | _, _, _, _, _, _ => inl errors
  end.
End WebhookRequest.

Module TransactionResponse.
Record t := {
  transaction_id : string;
  source_account : string;
  destination_account : string;
  amount : float;
  currency : string;
  status : string;
  created_at : string;
  processed_at : option string
}.

(** The model built from the keys of [kw]: seven required fields and the optional
    [processed_at], whose default is [None]; other keys are ignored. *)
Definition init (kw : dict) : exn + t :=
  match kw !! "transaction_id", kw !! "source_account",
        kw !! "destination_account", kw !! "amount", kw !! "currency",
        kw !! "status", kw !! "created_at" with
  | Some (VStr i), Some (VStr s), Some (VStr d), Some (VFloat a),
    Some (VStr c), Some (VStr st), Some (VStr cr) =>
      let build p :=
        inr {| transaction_id := i; source_account := s;
               destination_account := d; amount := a; currency := c;
               status := st; created_at := cr; processed_at := p |} in
      match kw !! "processed_at" with
      | None | Some VNone => build None
      | Some (VStr p) => build (Some p)
      | Some _ => inl (ValidationError "processed_at: str type expected")
      end
  | _, _, _, _, _, _, _ =>
      inl (ValidationError "TransactionResponse: field required")
  end.
End TransactionResponse.

(** ** Effects *)

Inductive level := INFO | WARNING | ERROR.

(** [pymongo.results.UpdateResult]. *)
Record UpdateResult := { matched_count : nat; modified_count : nat }.

(** The update document [{"$set": fields}]. *)
Inductive update := dollar_set (fields : dict).

(** The calls the program makes on the outside world. [ThreadStart] is
    [threading.Thread(target=process_transaction_background,
    args=(transaction_id,), daemon=True).start()]; the four calls on the
    collection are those of [db.transactions]. *)
Inductive cmd :=
| Log (lvl : level) (msg : string)        (* logger.info/warning/error *)
| TimeSleep (secs : nat)                  (* time.sleep *)
| UtcNow                                  (* datetime.utcnow() *)
| Connect (url : string)                  (* MongoClient(url) *)
| Close                                   (* sync_client.close() *)
| CreateIndex (keys : string) (unique : bool)
| InsertOne (document : dict)
| FindOne (filter : dict)
| UpdateOne (filter : dict) (upd : update)
| ThreadStart (transaction_id : string).

#[global] Instance level_eq_dec : EqDecision level.
Proof. solve_decision. Defined.
#[global] Instance update_eq_dec : EqDecision update.
Proof. solve_decision. Defined.
#[global] Instance cmd_eq_dec : EqDecision cmd.
Proof. solve_decision. Defined.

(** What a call returns when it does not raise. *)
Definition result (c : cmd) : Type :=
  match c with
  | UtcNow => datetime
  | FindOne _ => option dict
  | UpdateOne _ _ => UpdateResult
  | _ => unit
  end.

(** A program: it returns, raises, or makes a call and goes on with what
    the call returned or raised. *)
Inductive Py (A : Type) : Type :=
| Return (a : A)
| Raise (e : exn)
| Call (c : cmd) (k : exn + result c → Py A).
Arguments Return {A} a.
Arguments Raise {A} e.
Arguments Call {A} c k.

Fixpoint bind {A B} (p : Py A) (f : A → Py B) : Py B :=
  match p with
  | Return a => f a
  | Raise e => Raise e
  | Call c k => Call c (λ r, bind (k r) f)
  end.

#[global] Instance Py_ret : MRet Py := @Return.
#[global] Instance Py_bind : MBind Py := λ A B f p, bind p f.

(** [try: body except Exception as e: handler e]. An exception of the
    handler itself is not caught again. *)
Fixpoint try_except {A} (body : Py A) (handler : exn → Py A) : Py A :=
  match body with
  | Return a => Return a
  | Raise e => handler e
  | Call c k => Call c (λ r, try_except (k r) handler)
  end.

(** A call as a program: an exception of the call is raised. *)
Definition call (c : cmd) : Py (result c) :=
  Call c (λ r, match r with inl e => Raise e | inr x => Return x end).

Definition logger_info (msg : string) : Py unit := call (Log INFO msg).
Definition logger_warning (msg : string) : Py unit := call (Log WARNING msg).
Definition logger_error (msg : string) : Py unit := call (Log ERROR msg).
Definition time_sleep (secs : nat) : Py unit := call (TimeSleep secs).
Definition datetime_utcnow : Py datetime := call UtcNow.
Definition MongoClient (url : string) : Py unit := call (Connect url).
Definition close : Py unit := call Close.
Definition create_index (keys : string) (unique : bool) : Py unit :=
  call (CreateIndex keys unique).
Definition insert_one (document : dict) : Py unit := call (InsertOne document).
Definition find_one (filter : dict) : Py (option dict) := call (FindOne filter).
Definition update_one (filter : dict) (upd : update) : Py UpdateResult :=
  call (UpdateOne filter upd).
Definition Thread_start (transaction_id : string) : Py unit :=
  call (ThreadStart transaction_id).

(** ** The program *)

Definition MONGODB_URL : string :=
  "mongodb://localhost:27017/webhook_processor".

(** The settlement worker. *)
Definition process_transaction_background (transaction_id : string)
  : Py unit :=
  try_except
    (logger_info
       ("Starting background processing for transaction: "
        +:+ transaction_id);;
     time_sleep 30;;
     MongoClient MONGODB_URL;;
     now ← datetime_utcnow;
     result ← update_one
       {[ "transaction_id" := VStr transaction_id ]}
       (dollar_set {[ "status" := VStr "PROCESSED";
                      "processed_at" := VStr (timestamp now) ]});
     (if (0 <? modified_count result)%nat
      then logger_info
             ("Transaction processed successfully: " +:+ transaction_id)
      else logger_warning
             ("Failed to update transaction: " +:+ transaction_id));;
     close)
    (λ e, logger_error
            ("Error processing transaction " +:+ transaction_id +:+ ": "
             +:+ str e)).

Definition start_background_processing (transaction_id : string) : Py unit :=
  Thread_start transaction_id;;
  logger_info
    ("Background processing thread started for: " +:+ transaction_id).

(** The startup hook. *)
Definition startup_event : Py unit :=
  try_except
    (create_index "transaction_id" true;;
     logger_info "Database indexes created")
    (λ e, logger_error ("Failed to create indexes: " +:+ str e)).

(** The intake handler, on a validated body. *)
Definition receive_webhook (webhook_data : WebhookRequest.t) : Py dict :=
  let transaction_id := WebhookRequest.transaction_id webhook_data in
  try_except
    (logger_info ("Received webhook for transaction: " +:+ transaction_id);;
     now ← datetime_utcnow;
     let transaction_doc : dict :=
       {[ "transaction_id" := VStr transaction_id;
          "source_account" :=
            VStr (WebhookRequest.source_account webhook_data);
          "destination_account" :=
            VStr (WebhookRequest.destination_account webhook_data);
          "amount" := VFloat (WebhookRequest.amount webhook_data);
          "currency" := VStr (WebhookRequest.currency webhook_data);
          "status" := VStr "PROCESSING";
          "created_at" := VStr (timestamp now);
          "processed_at" := VNone ]} in
     try_except
       (insert_one transaction_doc;;
        logger_info ("New transaction created: " +:+ transaction_id);;
        start_background_processing transaction_id;;
        logger_info
          ("Background processing started for: " +:+ transaction_id))
       (λ e, if contains "duplicate key" (lower (str e))
             then logger_info
                    ("Duplicate webhook ignored: " +:+ transaction_id)
             else Raise e);;
     mret ({[ "message" := VStr "Webhook received" ]} : dict))
    (λ e, logger_error ("Error processing webhook: " +:+ str e);;
          Raise (HTTPException HTTP_500_INTERNAL_SERVER_ERROR
                   "Failed to process webhook")).

(** The status query. [not transaction] holds of [None] and of the empty
    dictionary. *)
Definition get_transaction_status (transaction_id : string)
  : Py TransactionResponse.t :=
  try_except
    (logger_info ("Getting status for transaction: " +:+ transaction_id);;
     transaction ← find_one {[ "transaction_id" := VStr transaction_id ]};
     match transaction with
     | Some transaction =>
         if bool_decide (transaction = ∅)
         then Raise (HTTPException HTTP_404_NOT_FOUND
                       ("Transaction not found: " +:+ transaction_id))
         else
           let transaction := delete "_id" transaction in
           match TransactionResponse.init transaction with
           | inl e => Raise e
           | inr response => mret response
           end
     | None =>
         Raise (HTTPException HTTP_404_NOT_FOUND
                  ("Transaction not found: " +:+ transaction_id))
     end)
    (λ e, match e with
          | HTTPException _ _ => Raise e
          | _ =>
              logger_error ("Error getting transaction status: " +:+ str e);;
              Raise (HTTPException HTTP_500_INTERNAL_SERVER_ERROR
                       "Failed to retrieve transaction status")
          end).

(** ** The collection [db.transactions] *)

(** MongoDB is no part of the repository. The collection is modelled by the
    operations the program calls on it, as the server carries them out:
    an insert is refused with the error 11000 when the unique index exists
    and the key is taken; a find returns the first document that matches,
    or [None]; an update sets fields of the first document that matches and
    counts it as modified when that changes it; the unique index cannot be
    built over documents that share a key. *)

(** The documents in insertion order, and whether the unique index on
    [transaction_id] exists. *)
Record collection := {
  documents : list dict;
  unique_index : bool
}.

Module Collection.
(** The index key of a document. *)
Definition key (d : dict) : value := get "transaction_id" d.

Definition keys (docs : list dict) : list value := key <$> docs.

(** An equality filter: every field of the filter has that value. *)
Definition matches (filter d : dict) : Prop :=
  map_Forall (λ k v, get k d = v) filter.

#[global] Instance matches_dec filter d : Decision (matches filter d).
Proof. unfold matches. apply _. Defined.

Definition dquote : string := String "034"%char EmptyString.

(** The text of the server's error 11000. *)
Definition E11000 (k : value) : string :=
  "E11000 duplicate key error collection: webhook_processor.transactions"
  +:+ " index: transaction_id_1 dup key: { transaction_id: "
  +:+ match k with
      | VStr s => dquote +:+ s +:+ dquote
      | _ => "null"
      end
  +:+ " }".

(** The driver adds an [_id] to a document that has none. *)
Definition with_id (n : nat) (d : dict) : dict :=
  match d !! "_id" with
  | Some _ => d
  | None => <["_id" := VObjectId n]> d
  end.

Definition create_index (keys_ : string) (unique : bool) (c : collection)
  : exn + collection :=
  if bool_decide (keys_ = "transaction_id") && unique then
    if bool_decide (NoDup (keys (documents c)))
    then inr {| documents := documents c; unique_index := true |}
    else inl (DuplicateKeyError (E11000 VNone))
  else inr c.

Definition insert_one (d : dict) (c : collection) : exn + collection :=
  if unique_index c && bool_decide (key d ∈ keys (documents c))
  then inl (DuplicateKeyError (E11000 (key d)))
  else inr {| documents :=
                documents c ++ [with_id (length (documents c)) d];
              unique_index := unique_index c |}.

Definition find_one (filter : dict) (c : collection) : option dict :=
  snd <$> list_find (matches filter) (documents c).

(** The first document that matches gets the fields of [$set]; it counts
    as modified when that changes it. *)
Definition update_one (filter : dict) (upd : update) (c : collection)
  : exn + (UpdateResult * collection) :=
  let 'dollar_set fields := upd in
  match list_find (matches filter) (documents c) with
  | None => inr ({| matched_count := 0; modified_count := 0 |}, c)
  | Some (i, d) =>
      let d' := fields ∪ d in
      if bool_decide (d' = d)
      then inr ({| matched_count := 1; modified_count := 0 |}, c)
      else if unique_index c && bool_decide (key d' ≠ key d)
              && bool_decide (key d' ∈ keys (documents c))
      then inl (DuplicateKeyError (E11000 (key d')))
      else inr ({| matched_count := 1; modified_count := 1 |},
                {| documents := <[i := d']> (documents c);
                   unique_index := unique_index c |})
  end.
End Collection.

(** ** The world *)

(** The collection, the threads that were started (each one the rest of its
    program), the records of the logger, and the calls that were carried
    out, in order. *)
Record world := {
  transactions : collection;
  threads : list (Py unit);
  log : list (level * string);
  calls : list cmd
}.

Definition initial_world : world :=
  {| transactions := {| documents := []; unique_index := false |};
     threads := []; log := []; calls := [] |}.

Definition emit (lvl : level) (msg : string) (w : world) : world :=
  {| transactions := transactions w; threads := threads w;
     log := log w ++ [(lvl, msg)]; calls := calls w |}.

Definition carried_out (c : cmd) (w : world) : world :=
  {| transactions := transactions w; threads := threads w;
     log := log w; calls := calls w ++ [c] |}.

Definition set_transactions (c : collection) (w : world) : world :=
  {| transactions := c; threads := threads w;
     log := log w; calls := calls w |}.

Definition set_threads (ts : list (Py unit)) (w : world) : world :=
  {| transactions := transactions w; threads := ts;
     log := log w; calls := calls w |}.

(** What the outside world decides during one event: the reading of the
    clock, and which calls fail and with what exception. A call that fails
    this way has no effect. *)
Record env := {
  utcnow : datetime;
  fault : cmd → option exn
}.

Definition no_fault : cmd → option exn := λ _, None.

(** One call. The logger and the clock do not raise. *)
Definition exec (c : cmd) (ε : env) (w : world) : (exn + result c) * world :=
  match c as c0 return (exn + result c0) * world with
  | Log lvl msg => (inr tt, emit lvl msg w)
  | UtcNow => (inr (utcnow ε), carried_out UtcNow w)
  | TimeSleep secs =>
      match fault ε (TimeSleep secs) with
      | Some e => (inl e, w)
      | None => (inr tt, carried_out (TimeSleep secs) w)
      end
  | Connect url =>
      match fault ε (Connect url) with
      | Some e => (inl e, w)
      | None => (inr tt, carried_out (Connect url) w)
      end
  | Close =>
      match fault ε Close with
      | Some e => (inl e, w)
      | None => (inr tt, carried_out Close w)
      end
  | CreateIndex keys unique =>
      match fault ε (CreateIndex keys unique) with
      | Some e => (inl e, w)
      | None =>
          let w := carried_out (CreateIndex keys unique) w in
          match Collection.create_index keys unique (transactions w) with
          | inl e => (inl e, w)
          | inr col => (inr tt, set_transactions col w)
          end
      end
  | InsertOne d =>
      match fault ε (InsertOne d) with
      | Some e => (inl e, w)
      | None =>
          let w := carried_out (InsertOne d) w in
          match Collection.insert_one d (transactions w) with
          | inl e => (inl e, w)
          | inr col => (inr tt, set_transactions col w)
          end
      end
  | FindOne filter =>
      match fault ε (FindOne filter) with
      | Some e => (inl e, w)
      | None =>
          (inr (Collection.find_one filter (transactions w)),
           carried_out (FindOne filter) w)
      end
  | UpdateOne filter upd =>
      match fault ε (UpdateOne filter upd) with
      | Some e => (inl e, w)
      | None =>
          let w := carried_out (UpdateOne filter upd) w in
          match Collection.update_one filter upd (transactions w) with
          | inl e => (inl e, w)
          | inr (res, col) => (inr res, set_transactions col w)
          end
      end
  | ThreadStart transaction_id =>
      match fault ε (ThreadStart transaction_id) with
      | Some e => (inl e, w)
      | None =>
          let w := carried_out (ThreadStart transaction_id) w in
          (inr tt,
           set_threads
             (threads w ++ [process_transaction_background transaction_id])
             w)
      end
  end.

(** A handler runs to its end. *)
Fixpoint run {A} (p : Py A) (ε : env) (w : world) : (exn + A) * world :=
  match p with
  | Return a => (inr a, w)
  | Raise e => (inl e, w)
  | Call c k => let '(r, w') := exec c ε w in run (k r) ε w'
  end.

(** A thread runs until it is about to sleep, or to its end. *)
Definition is_sleep (c : cmd) : bool :=
  match c with TimeSleep _ => true | _ => false end.

Fixpoint until_sleep {A} (p : Py A) (ε : env) (w : world) : Py A * world :=
  match p with
  | Call c k =>
      if is_sleep c then (p, w)
      else let '(r, w') := exec c ε w in until_sleep (k r) ε w'
  | _ => (p, w)
  end.

(** A thread that is scheduled finishes the call it stands at (for a
    sleeping thread: it wakes up) and runs on. *)
Definition resume {A} (p : Py A) (ε : env) (w : world) : Py A * world :=
  match p with
  | Call c k => let '(r, w') := exec c ε w in until_sleep (k r) ε w'
  | _ => (p, w)
  end.

(** ** The application *)

(** What the framework sends back: the value a handler returns, with the
    status code of its route; the status code and detail of an
    [HTTPException]; the errors of a body that fails validation (422); or
    the plain 500 of an exception nobody handled. *)
Inductive response (A : Type) :=
| Response (status_code : nat) (content : A)
| ErrorResponse (status_code : nat) (detail : string)
| UnprocessableEntity (errors : validation_errors)
| InternalServerError.
Arguments Response {A} status_code content.
Arguments ErrorResponse {A} status_code detail.
Arguments UnprocessableEntity {A} errors.
Arguments InternalServerError {A}.

Definition serve {A} (status_code : nat) (handler : Py A) (ε : env)
  (w : world) : response A * world :=
  match run handler ε w with
  | (inr a, w') => (Response status_code a, w')
  | (inl (HTTPException code detail), w') => (ErrorResponse code detail, w')
  | (inl _, w') => (InternalServerError, w')
  end.

(** [POST /v1/webhooks/transactions]: the body is validated before the
    handler is called. *)
Definition post_webhook (str_as_float : string → option float)
  (body : dict) (ε : env) (w : world) : response dict * world :=
  match WebhookRequest.validate str_as_float body with
  | inl errors => (UnprocessableEntity errors, w)
  | inr webhook_data =>
      serve HTTP_202_ACCEPTED (receive_webhook webhook_data) ε w
  end.

(** [GET /v1/transactions/{transaction_id}]. *)
Definition get_transaction (transaction_id : string) (ε : env) (w : world)
  : response TransactionResponse.t * world :=
  serve 200 (get_transaction_status transaction_id) ε w.

(** The startup of the application: it fails when a startup hook raises,
    and serves otherwise. *)
Inductive startup_result := ServingTraffic | StartupFailed (e : exn).

Definition startup (ε : env) (w : world) : startup_result * world :=
  match run startup_event ε w with
  | (inr _, w') => (ServingTraffic, w')
  | (inl e, w') => (StartupFailed e, w')
  end.

(** Thread [i] of the pool is scheduled. *)
Definition schedule (i : nat) (ε : env) (w : world) : world :=
  match threads w !! i with
  | None => w
  | Some p =>
      let '(p', w') := resume p ε w in
      set_threads (<[i := p']> (threads w')) w'
  end.

(** The events of a run of the system, each with what the outside world
    decides during it, and what the system answers. An event is carried
    out in one piece: a handler from its first call to its answer, a thread
    from where it stands to its next sleep or its end. Each event makes at
    most one call on the collection, and the order of the events is the
    order in which handlers and threads interleave. The handlers get the
    validated body; a body that fails validation never reaches them (see
    [post_webhook]). *)
Inductive event :=
| Startup (ε : env)
| Webhook (webhook_data : WebhookRequest.t) (ε : env)
| Status (transaction_id : string) (ε : env)
| Schedule (i : nat) (ε : env).

Inductive reply :=
| Started (r : startup_result)
| WebhookReply (r : response dict)
| StatusReply (r : response TransactionResponse.t)
| Scheduled.

Definition handle (ev : event) (w : world) : reply * world :=
  match ev with
  | Startup ε => let '(r, w') := startup ε w in (Started r, w')
  | Webhook webhook_data ε =>
      let '(r, w') :=
        serve HTTP_202_ACCEPTED (receive_webhook webhook_data) ε w in
      (WebhookReply r, w')
  | Status transaction_id ε =>
      let '(r, w') := get_transaction transaction_id ε w in
      (StatusReply r, w')
  | Schedule i ε => (Scheduled, schedule i ε w)
  end.

Fixpoint run_trace (tr : list event) (w : world) : list reply * world :=
  match tr with
  | [] => ([], w)
  | ev :: tr' =>
      let '(r, w') := handle ev w in
      let '(rs, w'') := run_trace tr' w' in
      (r :: rs, w'')
  end.

Definition env_of (ev : event) : env :=
  match ev with
  | Startup ε | Webhook _ ε | Status _ ε | Schedule _ ε => ε
  end.

(** ** The states of a worker thread *)

(** A program after its first call, when that is a record of the logger. *)
Definition after_log {A} (p : Py A) : Py A :=
  match p with
  | Call (Log _ _) k => k (inr tt)
  | _ => p
  end.

(** The worker that has logged its start and stands at [time.sleep(30)]. *)
Definition sleeping_worker (transaction_id : string) : Py unit :=
  after_log (process_transaction_background transaction_id).

(** A thread of the pool is a worker that was started, one that sleeps, or
    one that has returned. *)
Definition worker_of (transaction_id : string) (p : Py unit) : Prop :=
  p = process_transaction_background transaction_id
  ∨ p = sleeping_worker transaction_id
  ∨ p = Return tt.

Definition workers_only (w : world) : Prop :=
  Forall (λ p, ∃ transaction_id, worker_of transaction_id p) (threads w).

(** ** The handlers and the worker as transitions of the world *)

(** The documents and dictionaries the program builds. *)
Definition transaction_doc (webhook_data : WebhookRequest.t) (now : datetime)
  : dict :=
  {[ "transaction_id" := VStr (WebhookRequest.transaction_id webhook_data);
     "source_account" := VStr (WebhookRequest.source_account webhook_data);
     "destination_account" :=
       VStr (WebhookRequest.destination_account webhook_data);
     "amount" := VFloat (WebhookRequest.amount webhook_data);
     "currency" := VStr (WebhookRequest.currency webhook_data);
     "status" := VStr "PROCESSING";
     "created_at" := VStr (timestamp now);
     "processed_at" := VNone ]}.

Definition by_transaction_id (transaction_id : string) : dict :=
  {[ "transaction_id" := VStr transaction_id ]}.

Definition processed (now : datetime) : dict :=
  {[ "status" := VStr "PROCESSED";
     "processed_at" := VStr (timestamp now) ]}.

Definition accepted : dict := {[ "message" := VStr "Webhook received" ]}.

(** The two ways the intake handler ends after an exception [e]. *)
Definition webhook_failed (transaction_id : string) (e : exn) (w : world)
  : (exn + dict) * world :=
  if contains "duplicate key" (lower (str e))
  then (inr accepted,
        emit INFO ("Duplicate webhook ignored: " +:+ transaction_id) w)
  else (inl (HTTPException 500 "Failed to process webhook"),
        emit ERROR ("Error processing webhook: " +:+ str e) w).

(** [receive_webhook] as a transition. *)
Definition intake (webhook_data : WebhookRequest.t) (ε : env) (w : world)
  : (exn + dict) * world :=
  let transaction_id := WebhookRequest.transaction_id webhook_data in
  let doc := transaction_doc webhook_data (utcnow ε) in
  let w1 :=
    carried_out UtcNow
      (emit INFO ("Received webhook for transaction: " +:+ transaction_id)
         w) in
  match fault ε (InsertOne doc) with
  | Some e => webhook_failed transaction_id e w1
  | None =>
      let w2 := carried_out (InsertOne doc) w1 in
      match Collection.insert_one doc (transactions w) with
      | inl e => webhook_failed transaction_id e w2
      | inr col =>
          let w3 :=
            emit INFO ("New transaction created: " +:+ transaction_id)
              (set_transactions col w2) in
          match fault ε (ThreadStart transaction_id) with
          | Some e => webhook_failed transaction_id e w3
          | None =>
              (inr accepted,
               emit INFO
                 ("Background processing started for: " +:+ transaction_id)
                 (emit INFO
                    ("Background processing thread started for: "
                     +:+ transaction_id)
                    (set_threads
                       (threads w
                        ++ [process_transaction_background transaction_id])
                       (carried_out (ThreadStart transaction_id) w3))))
          end
      end
  end.

(** The worker's handler of an exception. *)
Definition worker_failed (transaction_id : string) (e : exn) (w : world)
  : world :=
  emit ERROR
    ("Error processing transaction " +:+ transaction_id +:+ ": " +:+ str e)
    w.

(** The worker from its wake-up to its end, as a transition. *)
Definition settle (transaction_id : string) (ε : env) (w : world) : world :=
  let filter := by_transaction_id transaction_id in
  let upd := dollar_set (processed (utcnow ε)) in
  match fault ε (TimeSleep 30) with
  | Some e => worker_failed transaction_id e w
  | None =>
      let w1 := carried_out (TimeSleep 30) w in
      match fault ε (Connect MONGODB_URL) with
      | Some e => worker_failed transaction_id e w1
      | None =>
          let w2 := carried_out UtcNow (carried_out (Connect MONGODB_URL) w1) in
          match fault ε (UpdateOne filter upd) with
          | Some e => worker_failed transaction_id e w2
          | None =>
              let w3 := carried_out (UpdateOne filter upd) w2 in
              match Collection.update_one filter upd (transactions w) with
              | inl e => worker_failed transaction_id e w3
              | inr (res, col) =>
                  let w4 :=
                    (if (0 <? modified_count res)%nat
                     then emit INFO
                            ("Transaction processed successfully: "
                             +:+ transaction_id)
                     else emit WARNING
                            ("Failed to update transaction: "
                             +:+ transaction_id))
                      (set_transactions col w3) in
                  match fault ε Close with
                  | Some e => worker_failed transaction_id e w4
                  | None => carried_out Close w4
                  end
              end
          end
      end
  end.

(** [startup_event] as a transition. *)
Definition create_indexes (ε : env) (w : world) : world :=
  let c := CreateIndex "transaction_id" true in
  let failed e w := emit ERROR ("Failed to create indexes: " +:+ str e) w in
  match fault ε c with
  | Some e => failed e w
  | None =>
      match Collection.create_index "transaction_id" true (transactions w) with
      | inl e => failed e (carried_out c w)
      | inr col =>
          emit INFO "Database indexes created"
            (set_transactions col (carried_out c w))
      end
  end.

(** [get_transaction_status] as a transition. *)
Definition lookup (transaction_id : string) (ε : env) (w : world)
  : (exn + TransactionResponse.t) * world :=
  let filter := by_transaction_id transaction_id in
  let w1 :=
    emit INFO ("Getting status for transaction: " +:+ transaction_id) w in
  let not_found :=
    inl (HTTPException 404 ("Transaction not found: " +:+ transaction_id)) in
  let failed e w :=
    (inl (HTTPException 500 "Failed to retrieve transaction status"),
     emit ERROR ("Error getting transaction status: " +:+ str e) w) in
  match fault ε (FindOne filter) with
  | Some (HTTPException code detail) => (inl (HTTPException code detail), w1)
  | Some e => failed e w1
  | None =>
      let w2 := carried_out (FindOne filter) w1 in
      match Collection.find_one filter (transactions w) with
      | None => (not_found, w2)
      | Some transaction =>
          if bool_decide (transaction = ∅) then (not_found, w2)
          else
            match TransactionResponse.init (delete "_id" transaction) with
            | inl (HTTPException code detail) =>
                (inl (HTTPException code detail), w2)
            | inl e => failed e w2
            | inr response => (inr response, w2)
            end
      end
  end.

(** ** What one event can do to the collection *)

(** Nothing; the unique index is built; the document of an intake is
    appended; or the first document of a [transaction_id] gets the fields
    of the worker's update. [now] is the reading of the clock during the
    event. *)
Inductive store_step (now : datetime) (c : collection) : collection → Prop :=
| store_same : store_step now c c
| store_index :
    NoDup (Collection.keys (documents c)) →
    store_step now c {| documents := documents c; unique_index := true |}
| store_insert webhook_data :
    (unique_index c = true →
     Collection.key (transaction_doc webhook_data now)
       ∉ Collection.keys (documents c)) →
    store_step now c
      {| documents :=
           documents c
           ++ [Collection.with_id (length (documents c))
                 (transaction_doc webhook_data now)];
         unique_index := unique_index c |}
| store_settle transaction_id i d :
    list_find (Collection.matches (by_transaction_id transaction_id))
      (documents c) = Some (i, d) →
    store_step now c
      {| documents := <[i := processed now ∪ d]> (documents c);
         unique_index := unique_index c |}.

(** The world after a trace. *)
Definition after (tr : list event) (w : world) : world := (run_trace tr w).2.

Definition replies (tr : list event) (w : world) : list reply :=
  (run_trace tr w).1.

Definition records (w : world) : list dict := documents (transactions w).

(** ** Records *)

(** The document [d] holds the record [r]: each field of the data model is
    there, with the value [r] has. *)
Definition holds (r : TransactionResponse.t) (d : dict) : Prop :=
  d !! "transaction_id" = Some (VStr (TransactionResponse.transaction_id r))
  ∧ d !! "source_account"
    = Some (VStr (TransactionResponse.source_account r))
  ∧ d !! "destination_account"
    = Some (VStr (TransactionResponse.destination_account r))
  ∧ d !! "amount" = Some (VFloat (TransactionResponse.amount r))
  ∧ d !! "currency" = Some (VStr (TransactionResponse.currency r))
  ∧ d !! "status" = Some (VStr (TransactionResponse.status r))
  ∧ d !! "created_at" = Some (VStr (TransactionResponse.created_at r))
  ∧ d !! "processed_at"
    = Some (from_option VStr VNone (TransactionResponse.processed_at r)).

(** The two states of a record: [PROCESSING] without [processed_at], and
    [PROCESSED] with it. *)
Definition lifecycle (d : dict) : Prop :=
  (d !! "status" = Some (VStr "PROCESSING")
   ∧ d !! "processed_at" = Some VNone)
  ∨ (d !! "status" = Some (VStr "PROCESSED")
     ∧ ∃ p, d !! "processed_at" = Some (VStr p)).

(** [d'] is a later state of the document [d]: the fields other than
    [status] and [processed_at] are the same, and [PROCESSED] stays. *)
Definition same_but_settlement (d d' : dict) : Prop :=
  ∀ k, k ≠ "status" → k ≠ "processed_at" → d' !! k = d !! k.

Definition later_state (d d' : dict) : Prop :=
  same_but_settlement d d'
  ∧ (d !! "status" = Some (VStr "PROCESSED") →
     d' !! "status" = Some (VStr "PROCESSED")).

(** Every document of [docs] is still there, at its place, in a later
    state. *)
Definition grows (docs docs' : list dict) : Prop :=
  ∀ j d, docs !! j = Some d → ∃ d', docs' !! j = Some d' ∧ later_state d d'.

(** The unique index holds what it promises. *)
Definition index_sound (c : collection) : Prop :=
  unique_index c = true → NoDup (Collection.keys (documents c)).

(** ** The clock *)

(** The ranges of the fields of a [datetime] (every month taken to have 31
    days). *)
Definition is_datetime (t : datetime) : bool :=
  (1 <=? year t)%N && (year t <=? 9999)%N
  && (1 <=? month t)%N && (month t <=? 12)%N
  && (1 <=? day t)%N && (day t <=? 31)%N
  && (hour t <? 24)%N && (minute t <? 60)%N && (second t <? 60)%N
  && (microsecond t <? 1000000)%N.


Definition readings (tr : list event) : list datetime :=
  (λ ev, utcnow (env_of ev)) <$> tr.

(** The readings of the clock do not go back. *)
Fixpoint non_decreasing (ts : list datetime) : bool :=
  match ts with
  | t1 :: ts' =>
      match ts' with
      | t2 :: _ => datetime_le t1 t2 && non_decreasing ts'
      | [] => true
      end
  | [] => true
  end.

(** The timestamps of a document are readings of the clock: [created_at]
    one that is not after [t], and [processed_at], when it is there, one
    that is not before [created_at]. *)
Definition timely (t : datetime) (d : dict) : Prop :=
  ∃ tc, d !! "created_at" = Some (VStr (timestamp tc))
        ∧ is_datetime tc = true
        ∧ datetime_le tc t = true
        ∧ ∀ p, d !! "processed_at" = Some (VStr p) →
               ∃ tp, p = timestamp tp
                     ∧ is_datetime tp = true
                     ∧ datetime_le tc tp = true.

(** ** Sample data *)

Definition sample_time (minute_ second_ : N) : datetime :=
  {| year := 2024; month := 5; day := 17; hour := 9;
     minute := minute_; second := second_; microsecond := 250 |}.

Definition calm (now : datetime) : env := {| utcnow := now; fault := no_fault |}.

(** An environment in which the calls that [failing] holds of raise [e]. *)
Definition failing_with (failing : cmd → bool) (e : exn) (now : datetime)
  : env :=
  {| utcnow := now; fault := λ c, if failing c then Some e else None |}.



Definition is_update (c : cmd) : bool :=
  match c with UpdateOne _ _ => true | _ => false end.

Definition is_find (c : cmd) : bool :=
  match c with FindOne _ => true | _ => false end.

Definition sample_request (transaction_id account : string) (a : float)
  : WebhookRequest.t :=
  {| WebhookRequest.transaction_id := transaction_id;
     WebhookRequest.source_account := "acc_" +:+ account;
     WebhookRequest.destination_account := "acc_merchant";
     WebhookRequest.amount := a;
     WebhookRequest.currency := "INR" |}.

Definition sample_body (a : float) (currency : string) : dict :=
  {[ "transaction_id" := VStr "txn_abc";
     "source_account" := VStr "acc_user";
     "destination_account" := VStr "acc_merchant";
     "amount" := VFloat a;
     "currency" := VStr currency ]}.

(** The parser of pydantic on the strings of the examples. *)
Definition sample_str_as_float (s : string) : option float :=
  if bool_decide (s = "12.5") then Some 12.5%float
  else if bool_decide (s = "-5") then Some (-5)%float
  else None.

(** ** The calls of a worker *)

(** The calls a worker makes from its wake-up on, in order, when none of
    them raises. *)
Definition worker_calls (transaction_id : string) (now : datetime)
  : list cmd :=
  [TimeSleep 30; Connect MONGODB_URL; UtcNow;
   UpdateOne (by_transaction_id transaction_id) (dollar_set (processed now));
   Close].

(** The exception of the first of the calls [cs] that the environment makes
    fail. *)
Fixpoint raised (ε : env) (cs : list cmd) : option exn :=
  match cs with
  | [] => None
  | c :: cs' =>
      match c with
      | UtcNow | Log _ _ => raised ε cs'
      | _ =>
          match fault ε c with
          | Some e => Some e
          | None => raised ε cs'
          end
      end
  end.

(** ** Counting *)

(** The number of records with a [transaction_id]. *)
Definition stored (transaction_id : string) (w : world) : nat :=
  length (filter (λ k, k = VStr transaction_id)
            (Collection.keys (records w))).

(** The number of workers that were started for a [transaction_id]. *)
Definition dispatched (transaction_id : string) (w : world) : nat :=
  length (filter (λ c, c = ThreadStart transaction_id) (calls w)).

(** A run for the examples: startup, a webhook, the same webhook again, the
    worker is started and wakes up half a minute later. *)
Definition sample_run : list event :=
  [Startup (calm (sample_time 0 0));
   Webhook (sample_request "txn_abc" "user" 1500) (calm (sample_time 0 1));
   Webhook (sample_request "txn_abc" "user" 1500) (calm (sample_time 0 2));
   Schedule 0 (calm (sample_time 0 2));
   Schedule 0 (calm (sample_time 0 31))].

(** The same run up to the moment the worker sleeps. *)
Definition sample_run_sleeping : list event := take 4 sample_run.

(** ** Tactics *)

(** Unfolds the execution of a program, and nothing of the dictionaries. *)
Ltac exec_cbn :=
  cbn [run resume until_sleep exec is_sleep bind try_except call after_log
       mbind mret Py_bind Py_ret logger_info logger_warning logger_error
       time_sleep datetime_utcnow MongoClient close create_index insert_one
       find_one update_one Thread_start start_background_processing].

(** ** The health probe *)

Module HealthResponse.
Record t := { status : string; current_time : string }.
End HealthResponse.

(** [GET /]. *)
Definition health_check : Py HealthResponse.t :=
  now ← datetime_utcnow;
  mret {| HealthResponse.status := "HEALTHY";
          HealthResponse.current_time := timestamp now |}.

Definition get_health (ε : env) (w : world)
  : response HealthResponse.t * world :=
  serve 200 health_check ε w.

(** ** More vocabulary *)

(** The fields of a [WebhookRequest]. *)
Definition webhook_fields : list string :=
  ["transaction_id"; "source_account"; "destination_account"; "amount";
   "currency"].

(** The fields [TransactionResponse] requires. *)
Definition response_fields : list string :=
  ["transaction_id"; "source_account"; "destination_account"; "amount";
   "currency"; "status"; "created_at"].

(** The record of a webhook, as the status query shows it. *)
Definition response_of (webhook_data : WebhookRequest.t) (created : datetime)
  (status_ : string) (processed_at_ : option string)
  : TransactionResponse.t :=
  {| TransactionResponse.transaction_id :=
       WebhookRequest.transaction_id webhook_data;
     TransactionResponse.source_account :=
       WebhookRequest.source_account webhook_data;
     TransactionResponse.destination_account :=
       WebhookRequest.destination_account webhook_data;
     TransactionResponse.amount := WebhookRequest.amount webhook_data;
     TransactionResponse.currency := WebhookRequest.currency webhook_data;
     TransactionResponse.status := status_;
     TransactionResponse.created_at := timestamp created;
     TransactionResponse.processed_at := processed_at_ |}.

(** A worker of a [transaction_id] that has not made its update yet. *)
Definition pending (transaction_id : string) (p : Py unit) : Prop :=
  p = process_transaction_background transaction_id
  ∨ p = sleeping_worker transaction_id.

(** No thread of the pool is a worker of [transaction_id] that has its
    update still to make. *)
Definition no_worker_pending (transaction_id : string) (w : world) : Prop :=
  ∀ p, p ∈ threads w → ¬ pending transaction_id p.

(** ** More sample data *)

Definition is_thread_start (c : cmd) : bool :=
  match c with ThreadStart _ => true | _ => false end.

(** A document that another writer left in the collection, without a
    [created_at]. *)
Definition foreign_document : dict :=
  {[ "transaction_id" := VStr "txn_old"; "status" := VStr "PROCESSING" ]}.

(** A run without the startup hook: the same webhook twice, then both
    workers are started and wake up. *)
Definition unindexed_intakes : list event :=
  [Webhook (sample_request "txn_abc" "user" 1500) (calm (sample_time 0 1));
   Webhook (sample_request "txn_abc" "user" 1500) (calm (sample_time 0 2))].

Definition both_workers : list event :=
  [Schedule 0 (calm (sample_time 0 2)); Schedule 1 (calm (sample_time 0 3));
   Schedule 0 (calm (sample_time 0 32)); Schedule 1 (calm (sample_time 0 33))].

(** The record [d] of [transaction_id], at place [n] of the collection
    under the unique index, has no worker. *)
Definition stranded (transaction_id : string) (n : nat) (d : dict)
  (w : world) : Prop :=
  workers_only w
  ∧ unique_index (transactions w) = true
  ∧ NoDup (Collection.keys (records w))
  ∧ records w !! n = Some d
  ∧ Collection.key d = VStr transaction_id
  ∧ no_worker_pending transaction_id w.

Definition unstarted_reply (e : exn) : response dict :=
  if contains "duplicate key" (lower (str e))
  then Response 202 accepted
  else ErrorResponse 500 "Failed to process webhook".

(** The record of [transaction_id] as its worker expects it. *)
Definition awaited (transaction_id : string) (d : dict) : Prop :=
  Collection.key d = VStr transaction_id
  ∧ d !! "status" = Some (VStr "PROCESSING")
  ∧ d !! "processed_at" = Some VNone.

(** Under the unique index, a worker of the pool that has its update still
    to make is the only one of its [transaction_id], and the record of
    that [transaction_id] is there, [PROCESSING]. *)
Definition one_worker_each (w : world) : Prop :=
  workers_only w
  ∧ unique_index (transactions w) = true
  ∧ NoDup (Collection.keys (records w))
  ∧ (∀ transaction_id p,
       p ∈ threads w → pending transaction_id p →
       ∃ d, d ∈ records w ∧ awaited transaction_id d)
  ∧ (∀ transaction_id i j p q,
       threads w !! i = Some p → threads w !! j = Some q →
       pending transaction_id p → pending transaction_id q → i = j).

(** The calls of a worker up to its update. *)
Definition calls_to_update (transaction_id : string) (now : datetime)
  : list cmd :=
  take 4 (worker_calls transaction_id now).

(** ** Runs without the status queries *)

Definition is_status (ev : event) : bool :=
  match ev with Status _ _ => true | _ => false end.

Definition is_status_reply (r : reply) : bool :=
  match r with StatusReply _ => true | _ => false end.

Definition without_queries (tr : list event) : list event :=
  filter (λ ev, is_status ev = false) tr.

(** Two worlds with the same collection and the same pool. *)
Definition same_store (w1 w2 : world) : Prop :=
  transactions w1 = transactions w2 ∧ threads w1 = threads w2.

(** * Properties *)

(** ** Execution of the program *)

Lemma run_receive_webhook webhook_data ε w :
  run (receive_webhook webhook_data) ε w = intake webhook_data ε w.
Proof.
  unfold receive_webhook, intake, webhook_failed. exec_cbn.
  fold (transaction_doc webhook_data (utcnow ε)).
  destruct (fault ε (InsertOne _)) as [e|]; exec_cbn.
  { destruct (contains _ _); reflexivity. }
  change (transactions (carried_out _ (carried_out _ (emit _ _ w))))
    with (transactions w).
  destruct (Collection.insert_one _ _) as [e|col]; exec_cbn.
  { destruct (contains _ _); reflexivity. }
  destruct (fault ε (ThreadStart _)) as [e|]; exec_cbn.
  { destruct (contains _ _); reflexivity. }
  reflexivity.
Qed.

Lemma resume_started transaction_id ε w :
  resume (process_transaction_background transaction_id) ε w
  = (sleeping_worker transaction_id,
     emit INFO
       ("Starting background processing for transaction: "
        +:+ transaction_id) w).
Proof. reflexivity. Qed.

Lemma resume_sleeping transaction_id ε w :
  resume (sleeping_worker transaction_id) ε w
  = (Return tt, settle transaction_id ε w).
Proof.
  unfold sleeping_worker, process_transaction_background, settle,
    worker_failed.
  exec_cbn.
  fold (by_transaction_id transaction_id). fold (processed (utcnow ε)).
  destruct (fault ε (TimeSleep 30)) as [e|]; exec_cbn; [reflexivity|].
  destruct (fault ε (Connect _)) as [e|]; exec_cbn; [reflexivity|].
  destruct (fault ε (UpdateOne _ _)) as [e|]; exec_cbn; [reflexivity|].
  change (transactions (carried_out _ (carried_out _ (carried_out _
            (carried_out _ w))))) with (transactions w).
  destruct (Collection.update_one _ _ _) as [e|[res col]]; exec_cbn;
    [reflexivity|].
  destruct (0 <? modified_count res)%nat; exec_cbn;
    destruct (fault ε Close) as [e|]; reflexivity.
Qed.

Lemma run_startup_event ε w :
  run startup_event ε w = (inr tt, create_indexes ε w).
Proof.
  unfold startup_event, create_indexes. exec_cbn.
  destruct (fault ε (CreateIndex _ _)) as [e|]; exec_cbn; [reflexivity|].
  change (transactions (carried_out _ w)) with (transactions w).
  destruct (Collection.create_index _ _ _) as [e|col]; reflexivity.
Qed.

Lemma run_get_transaction_status transaction_id ε w :
  run (get_transaction_status transaction_id) ε w = lookup transaction_id ε w.
Proof.
  unfold get_transaction_status, lookup. exec_cbn.
  fold (by_transaction_id transaction_id).
  destruct (fault ε (FindOne _)) as [e|]; exec_cbn.
  { destruct e; reflexivity. }
  change (transactions (emit _ _ w)) with (transactions w).
  destruct (Collection.find_one _ _) as [transaction|]; exec_cbn;
    [|reflexivity].
  destruct (bool_decide _); exec_cbn; [reflexivity|].
  destruct (TransactionResponse.init _) as [e|r]; exec_cbn; [|reflexivity].
  destruct e; reflexivity.
Qed.

(** ** Dictionaries *)

Lemma matches_by_transaction_id transaction_id d :
  Collection.matches (by_transaction_id transaction_id) d
  ↔ Collection.key d = VStr transaction_id.
Proof.
  unfold Collection.matches, by_transaction_id, Collection.key.
  by rewrite map_Forall_singleton.
Qed.

Lemma processed_status now (d : dict) :
  (processed now ∪ d) !! "status" = Some (VStr "PROCESSED").
Proof. by apply lookup_union_Some_l. Qed.

Lemma processed_processed_at now (d : dict) :
  (processed now ∪ d) !! "processed_at" = Some (VStr (timestamp now)).
Proof. by apply lookup_union_Some_l. Qed.

Lemma processed_other now (d : dict) k :
  k ≠ "status" → k ≠ "processed_at" → (processed now ∪ d) !! k = d !! k.
Proof.
  intros Hs Hp. apply lookup_union_r. unfold processed.
  rewrite lookup_insert_ne by done. by rewrite lookup_singleton_ne.
Qed.

Lemma processed_key now (d : dict) :
  Collection.key (processed now ∪ d) = Collection.key d.
Proof.
  unfold Collection.key, get. by rewrite processed_other.
Qed.

Lemma transaction_doc_key webhook_data now :
  Collection.key (transaction_doc webhook_data now)
  = VStr (WebhookRequest.transaction_id webhook_data).
Proof. reflexivity. Qed.

Lemma with_id_transaction_doc n webhook_data now :
  Collection.with_id n (transaction_doc webhook_data now)
  = <["_id" := VObjectId n]> (transaction_doc webhook_data now).
Proof. reflexivity. Qed.

(** ** The operations of the collection *)

Lemma E11000_duplicate_key k :
  contains "duplicate key" (lower (Collection.E11000 k)) = true.
Proof. reflexivity. Qed.

Lemma insert_one_inr d c c' :
  Collection.insert_one d c = inr c' →
  c' = {| documents :=
            documents c ++ [Collection.with_id (length (documents c)) d];
          unique_index := unique_index c |}
  ∧ (unique_index c = true →
     Collection.key d ∉ Collection.keys (documents c)).
Proof.
  unfold Collection.insert_one.
  destruct (unique_index c) eqn:Hu; cbn [andb].
  - case_bool_decide as Hin; [discriminate|]. by intros [= <-].
  - by intros [= <-].
Qed.

Lemma insert_one_inl d c e :
  Collection.insert_one d c = inl e →
  e = DuplicateKeyError (Collection.E11000 (Collection.key d))
  ∧ unique_index c = true
  ∧ Collection.key d ∈ Collection.keys (documents c).
Proof.
  unfold Collection.insert_one.
  destruct (unique_index c); cbn [andb]; [|discriminate].
  case_bool_decide as Hin; [|discriminate]. by intros [= <-].
Qed.

Lemma create_index_inr c c' :
  Collection.create_index "transaction_id" true c = inr c' →
  c' = {| documents := documents c; unique_index := true |}
  ∧ NoDup (Collection.keys (documents c)).
Proof.
  unfold Collection.create_index.
  rewrite bool_decide_eq_true_2 by done. cbn [andb].
  case_bool_decide as Hnd; [|discriminate]. by intros [= <-].
Qed.

(** The worker's update never fails in the collection: it leaves the
    collection as it is, or changes the first document of its
    [transaction_id]. *)
Lemma update_one_processed transaction_id now c :
  ∃ res c',
    Collection.update_one (by_transaction_id transaction_id)
      (dollar_set (processed now)) c = inr (res, c')
    ∧ ((c' = c ∧ modified_count res = 0)
       ∨ ∃ i d,
           list_find (Collection.matches (by_transaction_id transaction_id))
             (documents c) = Some (i, d)
           ∧ processed now ∪ d ≠ d
           ∧ c' = {| documents := <[i := processed now ∪ d]> (documents c);
                     unique_index := unique_index c |}
           ∧ modified_count res = 1).
Proof.
  unfold Collection.update_one.
  destruct (list_find _ _) as [[i d]|] eqn:Hfind; [|eauto 10].
  case_bool_decide as Hsame; [eauto 10|].
  rewrite processed_key.
  rewrite (bool_decide_eq_false_2 (Collection.key d ≠ Collection.key d))
    by (intros H; by apply H).
  rewrite andb_false_r. cbn [andb]. eauto 12.
Qed.

(** ** One event, seen from the collection and the pool *)

Lemma webhook_failed_frame transaction_id e w :
  transactions (webhook_failed transaction_id e w).2 = transactions w
  ∧ threads (webhook_failed transaction_id e w).2 = threads w
  ∧ calls (webhook_failed transaction_id e w).2 = calls w.
Proof. unfold webhook_failed. by destruct (contains _ _). Qed.

Lemma intake_step webhook_data ε w :
  store_step (utcnow ε) (transactions w)
    (transactions (intake webhook_data ε w).2).
Proof.
  unfold intake.
  destruct (fault ε (InsertOne _)).
  { rewrite (proj1 (webhook_failed_frame _ _ _)). constructor. }
  destruct (Collection.insert_one _ _) as [e|col] eqn:Hins.
  { rewrite (proj1 (webhook_failed_frame _ _ _)). constructor. }
  apply insert_one_inr in Hins as [-> Hfresh].
  destruct (fault ε (ThreadStart _)).
  { rewrite (proj1 (webhook_failed_frame _ _ _)). by constructor. }
  by constructor.
Qed.

Lemma intake_threads webhook_data ε w :
  threads (intake webhook_data ε w).2 = threads w
  ∨ threads (intake webhook_data ε w).2
    = threads w
      ++ [process_transaction_background
            (WebhookRequest.transaction_id webhook_data)].
Proof.
  unfold intake.
  repeat case_match;
    rewrite ?(proj1 (proj2 (webhook_failed_frame _ _ _))); auto.
Qed.

Lemma settle_threads transaction_id ε w :
  threads (settle transaction_id ε w) = threads w.
Proof. unfold settle, worker_failed. by repeat case_match. Qed.

Lemma settle_step transaction_id ε w :
  store_step (utcnow ε) (transactions w)
    (transactions (settle transaction_id ε w)).
Proof.
  unfold settle, worker_failed.
  destruct (update_one_processed transaction_id (utcnow ε) (transactions w))
    as (res & c' & -> & Hc').
  assert (store_step (utcnow ε) (transactions w) c') as Hstep.
  { destruct Hc' as [[-> _]|(i & d & Hfind & _ & -> & _)].
    - constructor.
    - by econstructor. }
  repeat case_match; first [exact Hstep | constructor].
Qed.

Lemma create_indexes_threads ε w : threads (create_indexes ε w) = threads w.
Proof. unfold create_indexes. by repeat case_match. Qed.

Lemma create_indexes_step ε w :
  store_step (utcnow ε) (transactions w) (transactions (create_indexes ε w)).
Proof.
  unfold create_indexes.
  destruct (fault ε _); [constructor|].
  destruct (Collection.create_index _ _ _) as [e|col] eqn:Hidx; [constructor|].
  apply create_index_inr in Hidx as [-> Hnd]. by constructor.
Qed.

Lemma lookup_frame transaction_id ε w :
  transactions (lookup transaction_id ε w).2 = transactions w
  ∧ threads (lookup transaction_id ε w).2 = threads w.
Proof. unfold lookup. by repeat case_match. Qed.

Lemma schedule_worker i ε w p :
  threads w !! i = Some p →
  (∃ transaction_id, worker_of transaction_id p) →
  (schedule i ε w = w ∧ p = Return tt)
  ∨ ∃ transaction_id,
      (p = process_transaction_background transaction_id
       ∧ schedule i ε w
         = set_threads (<[i := sleeping_worker transaction_id]> (threads w))
             (emit INFO
                ("Starting background processing for transaction: "
                 +:+ transaction_id) w))
      ∨ (p = sleeping_worker transaction_id
         ∧ schedule i ε w
           = set_threads (<[i := Return tt]> (threads w))
               (settle transaction_id ε w)).
Proof.
  intros Hi [transaction_id [->|[->| ->]]]; unfold schedule; rewrite Hi.
  - right. exists transaction_id. left. split; [done|].
    by rewrite resume_started.
  - right. exists transaction_id. right. split; [done|].
    rewrite resume_sleeping. cbn beta iota zeta. by rewrite settle_threads.
  - left. split; [|done]. cbn [resume].
    destruct w as [c ts l cs]. unfold set_threads. cbn in *.
    by rewrite list_insert_id.
Qed.

Lemma workers_only_insert i p w w' :
  workers_only w →
  threads w' = threads w →
  (∃ transaction_id, worker_of transaction_id p) →
  workers_only (set_threads (<[i := p]> (threads w)) w').
Proof.
  unfold workers_only. intros Hw Hts Hp. cbn.
  destruct (decide (i < length (threads w))) as [Hlt|Hge].
  - by apply Forall_insert.
  - rewrite list_insert_ge by lia. done.
Qed.

Lemma handle_step ev w :
  workers_only w →
  store_step (utcnow (env_of ev)) (transactions w)
    (transactions (handle ev w).2)
  ∧ workers_only (handle ev w).2.
Proof.
  intros Hw. destruct ev as [ε|webhook_data ε|transaction_id ε|i ε].
  - cbn [handle env_of]. unfold startup. rewrite run_startup_event. cbn.
    split; [apply create_indexes_step|].
    unfold workers_only. by rewrite create_indexes_threads.
  - cbn [handle env_of]. unfold serve. rewrite run_receive_webhook.
    assert (workers_only (intake webhook_data ε w).2) as Hw'.
    { unfold workers_only.
      destruct (intake_threads webhook_data ε w) as [->| ->]; [done|].
      apply Forall_app. split; [done|]. apply Forall_singleton.
      eexists. by left. }
    pose proof (intake_step webhook_data ε w) as Hstep.
    destruct (intake webhook_data ε w) as [[e|a] w']; [destruct e|]; done.
  - cbn [handle env_of]. unfold get_transaction, serve.
    rewrite run_get_transaction_status.
    pose proof (lookup_frame transaction_id ε w) as [Hc Hts].
    destruct (lookup transaction_id ε w) as [[e|a] w'];
      [destruct e|]; cbn in *; rewrite Hc;
      (split; [constructor|]); unfold workers_only; by rewrite Hts.
  - cbn [handle env_of snd].
    destruct (threads w !! i) as [p|] eqn:Hi.
    2:{ unfold schedule. rewrite Hi. split; [constructor|done]. }
    assert (∃ transaction_id, worker_of transaction_id p) as Hp.
    { unfold workers_only in Hw. rewrite Forall_lookup in Hw. by eapply Hw. }
    destruct (schedule_worker i ε w p Hi Hp)
      as [[-> _]|(transaction_id & [[-> ->]|[-> ->]])].
    + split; [constructor|done].
    + split; [constructor|].
      apply workers_only_insert; [done|done|]. eexists. right. by left.
    + split; [apply settle_step|].
      rewrite <- (settle_threads transaction_id ε w).
      apply workers_only_insert.
      * unfold workers_only. by rewrite settle_threads.
      * done.
      * exists transaction_id. right. by right.
Qed.

(** ** Invariants of the collection *)

Lemma find_lookup (filter : dict) (docs : list dict) i d :
  list_find (Collection.matches filter) docs = Some (i, d) →
  docs !! i = Some d ∧ Collection.matches filter d.
Proof. intros H. apply list_find_Some in H. tauto. Qed.

Lemma holds_transaction_doc n webhook_data now :
  holds
    {| TransactionResponse.transaction_id :=
         WebhookRequest.transaction_id webhook_data;
       TransactionResponse.source_account :=
         WebhookRequest.source_account webhook_data;
       TransactionResponse.destination_account :=
         WebhookRequest.destination_account webhook_data;
       TransactionResponse.amount := WebhookRequest.amount webhook_data;
       TransactionResponse.currency := WebhookRequest.currency webhook_data;
       TransactionResponse.status := "PROCESSING";
       TransactionResponse.created_at := timestamp now;
       TransactionResponse.processed_at := None |}
    (Collection.with_id n (transaction_doc webhook_data now)).
Proof. repeat split. Qed.

Lemma holds_processed r d now :
  holds r d →
  holds
    {| TransactionResponse.transaction_id :=
         TransactionResponse.transaction_id r;
       TransactionResponse.source_account :=
         TransactionResponse.source_account r;
       TransactionResponse.destination_account :=
         TransactionResponse.destination_account r;
       TransactionResponse.amount := TransactionResponse.amount r;
       TransactionResponse.currency := TransactionResponse.currency r;
       TransactionResponse.status := "PROCESSED";
       TransactionResponse.created_at := TransactionResponse.created_at r;
       TransactionResponse.processed_at := Some (timestamp now) |}
    (processed now ∪ d).
Proof.
  intros (H1 & H2 & H3 & H4 & H5 & H6 & H7 & H8).
  unfold holds. cbn.
  rewrite processed_status, processed_processed_at.
  rewrite !processed_other by done. done.
Qed.

Lemma store_step_stored now c c' :
  store_step now c c' →
  Forall (λ d, ∃ r, holds r d) (documents c) →
  Forall (λ d, ∃ r, holds r d) (documents c').
Proof.
  intros [| |webhook_data Hfresh|transaction_id i d Hfind] Hdocs; cbn;
    try done.
  - apply Forall_app. split; [done|]. apply Forall_singleton.
    eexists. apply holds_transaction_doc.
  - apply find_lookup in Hfind as [Hi _].
    apply Forall_insert; [done|].
    rewrite Forall_lookup in Hdocs. destruct (Hdocs i d Hi) as [r Hr].
    eexists. by apply holds_processed.
Qed.

Lemma store_step_lifecycle now c c' :
  store_step now c c' →
  Forall lifecycle (documents c) → Forall lifecycle (documents c').
Proof.
  intros [| |webhook_data Hfresh|transaction_id i d Hfind] Hdocs; cbn;
    try done.
  - apply Forall_app. split; [done|]. apply Forall_singleton. by left.
  - apply Forall_insert; [done|]. right.
    rewrite processed_status, processed_processed_at. eauto.
Qed.

Lemma with_id_key n webhook_data now :
  Collection.key (Collection.with_id n (transaction_doc webhook_data now))
  = VStr (WebhookRequest.transaction_id webhook_data).
Proof. reflexivity. Qed.

Lemma keys_settle now (docs : list dict) i d :
  docs !! i = Some d →
  Collection.keys (<[i := processed now ∪ d]> docs) = Collection.keys docs.
Proof.
  intros Hi. unfold Collection.keys. rewrite list_fmap_insert.
  rewrite processed_key. apply list_insert_id.
  by rewrite list_lookup_fmap, Hi.
Qed.

Lemma store_step_keys now c c' :
  store_step now c c' →
  Collection.keys (documents c') = Collection.keys (documents c)
  ∨ ∃ webhook_data,
      Collection.keys (documents c')
      = Collection.keys (documents c)
        ++ [VStr (WebhookRequest.transaction_id webhook_data)]
      ∧ (unique_index c = true →
         VStr (WebhookRequest.transaction_id webhook_data)
           ∉ Collection.keys (documents c)).
Proof.
  intros [| |webhook_data Hfresh|transaction_id i d Hfind]; cbn; auto.
  - right. exists webhook_data. unfold Collection.keys.
    rewrite fmap_app. cbn [fmap list_fmap]. by rewrite with_id_key.
  - left. apply find_lookup in Hfind as [Hi _]. by apply keys_settle.
Qed.

Lemma store_step_unique_index now c c' :
  store_step now c c' →
  unique_index c' = unique_index c
  ∨ (unique_index c' = true ∧ documents c' = documents c
     ∧ NoDup (Collection.keys (documents c))).
Proof. intros [| | |]; cbn; auto. Qed.

Lemma store_step_index_sound now c c' :
  store_step now c c' → index_sound c → index_sound c'.
Proof.
  intros Hstep Hc. unfold index_sound.
  destruct (store_step_unique_index _ _ _ Hstep) as [->|(_ & Hd & Hnd)].
  2:{ intros _. by rewrite Hd. }
  intros Hu.
  destruct (store_step_keys _ _ _ Hstep) as [->|(wd & -> & Hfresh)].
  - by apply Hc.
  - apply NoDup_app. split_and!; [by apply Hc| |apply NoDup_singleton].
    intros k Hk ->%list_elem_of_singleton. by apply Hfresh.
Qed.

Lemma later_state_refl d : later_state d d.
Proof. by split. Qed.

Lemma later_state_trans d1 d2 d3 :
  later_state d1 d2 → later_state d2 d3 → later_state d1 d3.
Proof.
  intros [H12 P12] [H23 P23]. split.
  - intros k Hs Hp. rewrite H23, H12; done.
  - auto.
Qed.

Lemma later_state_processed now d : later_state d (processed now ∪ d).
Proof.
  split.
  - intros k Hs Hp. by apply processed_other.
  - intros _. apply processed_status.
Qed.

Lemma grows_refl docs : grows docs docs.
Proof. intros j d Hj. exists d. split; [done|apply later_state_refl]. Qed.

Lemma grows_trans docs1 docs2 docs3 :
  grows docs1 docs2 → grows docs2 docs3 → grows docs1 docs3.
Proof.
  intros H12 H23 j d1 Hj.
  destruct (H12 j d1 Hj) as (d2 & Hj2 & L12).
  destruct (H23 j d2 Hj2) as (d3 & Hj3 & L23).
  exists d3. split; [done|]. by eapply later_state_trans.
Qed.

Lemma store_step_grows now c c' :
  store_step now c c' → grows (documents c) (documents c').
Proof.
  intros [| |webhook_data Hfresh|transaction_id i d Hfind]; cbn;
    try apply grows_refl.
  - intros j d Hj. exists d. split; [|apply later_state_refl].
    by apply lookup_app_l_Some.
  - apply find_lookup in Hfind as [Hi _]. intros j d' Hj.
    destruct (decide (j = i)) as [->|Hne].
    + assert (d' = d) as -> by congruence.
      exists (processed now ∪ d). split; [|apply later_state_processed].
      apply list_lookup_insert_eq. by eapply lookup_lt_Some.
    + exists d'. split; [|apply later_state_refl].
      by rewrite list_lookup_insert_ne.
Qed.

(** ** Traces *)

Lemma after_cons ev tr w : after (ev :: tr) w = after tr (handle ev w).2.
Proof.
  unfold after. cbn [run_trace].
  destruct (handle ev w) as [r w']. cbn [snd].
  destruct (run_trace tr w'). reflexivity.
Qed.

Lemma replies_cons ev tr w :
  replies (ev :: tr) w = (handle ev w).1 :: replies tr (handle ev w).2.
Proof.
  unfold replies. cbn [run_trace].
  destruct (handle ev w) as [r w']. cbn [fst snd].
  destruct (run_trace tr w'). reflexivity.
Qed.

Lemma after_app tr1 tr2 w : after (tr1 ++ tr2) w = after tr2 (after tr1 w).
Proof.
  revert w. induction tr1 as [|ev tr1 IH]; intros w; [done|].
  cbn [app]. by rewrite !after_cons, IH.
Qed.

Lemma workers_only_initial : workers_only initial_world.
Proof. constructor. Qed.

(** A property of the collection that every step keeps holds after every
    trace. *)
Lemma after_invariant (P : collection → Prop) :
  (∀ now c c', store_step now c c' → P c → P c') →
  ∀ tr w,
    workers_only w → P (transactions w) →
    P (transactions (after tr w)) ∧ workers_only (after tr w).
Proof.
  intros Hstep tr. induction tr as [|ev tr IH]; intros w Hw HP; [done|].
  rewrite after_cons. destruct (handle_step ev w Hw) as [Hs Hw'].
  apply IH; [done|]. by eapply Hstep.
Qed.

Lemma after_workers_only tr w : workers_only w → workers_only (after tr w).
Proof.
  intros Hw. by apply (after_invariant (λ _, True)).
Qed.

Lemma after_grows tr w :
  workers_only w → grows (records w) (records (after tr w)).
Proof.
  revert w. induction tr as [|ev tr IH]; intros w Hw; [apply grows_refl|].
  rewrite after_cons. destruct (handle_step ev w Hw) as [Hs Hw'].
  eapply grows_trans; [|by apply IH]. by eapply store_step_grows.
Qed.

(** ** The order of the readings *)

Lemma lex_le_refl xs : lex_le xs xs = true.
Proof.
  induction xs as [|x xs IH]; [done|]. cbn [lex_le].
  rewrite N.eqb_refl, IH. by rewrite orb_true_r.
Qed.

Lemma lex_le_trans xs ys zs :
  lex_le xs ys = true → lex_le ys zs = true → lex_le xs zs = true.
Proof.
  revert ys zs. induction xs as [|x xs IH]; intros [|y ys] [|z zs];
    cbn [lex_le]; try done.
  rewrite !orb_true_iff, !andb_true_iff, !N.ltb_lt, !N.eqb_eq.
  intros [Hxy|[-> Hxy]] [Hyz|[-> Hyz]]; [left; lia|by left|by left|].
  right. split; [done|]. by eapply IH.
Qed.

Lemma datetime_le_refl t : datetime_le t t = true.
Proof. apply lex_le_refl. Qed.

Lemma datetime_le_trans t1 t2 t3 :
  datetime_le t1 t2 = true → datetime_le t2 t3 = true →
  datetime_le t1 t3 = true.
Proof. apply lex_le_trans. Qed.

Lemma timely_later t t' d :
  datetime_le t t' = true → timely t d → timely t' d.
Proof.
  intros Htt' (tc & Hc & Hvalid & Hle & Hp). exists tc.
  split_and!; [done|done| |done]. by eapply datetime_le_trans.
Qed.

Lemma store_step_timely t now c c' :
  is_datetime now = true →
  datetime_le t now = true →
  store_step now c c' →
  Forall (timely t) (documents c) → Forall (timely now) (documents c').
Proof.
  intros Hvalid Hle Hstep Hdocs.
  assert (Forall (timely now) (documents c)) as Hnow.
  { eapply Forall_impl; [done|]. intros d. by apply timely_later. }
  destruct Hstep as [| |webhook_data Hfresh|transaction_id i d Hfind]; cbn;
    try done.
  - apply Forall_app. split; [done|]. apply Forall_singleton.
    exists now. split_and!; [done|done|apply datetime_le_refl|].
    intros p Hp. discriminate Hp.
  - apply find_lookup in Hfind as [Hi _].
    apply Forall_insert; [done|].
    rewrite Forall_lookup in Hnow.
    destruct (Hnow i d Hi) as (tc & Hc & Hvc & Htc & _).
    exists tc. split_and!; [|done|done|].
    + by rewrite processed_other.
    + intros p. rewrite processed_processed_at. intros [= <-]. eauto.
Qed.

Lemma last_cons_default {A} (l : list A) :
  ∀ a d, List.last (a :: l) d = List.last l a.
Proof.
  induction l as [|x l IH]; intros a d; [done|].
  change (List.last (a :: x :: l) d) with (List.last (x :: l) d).
  by rewrite !IH.
Qed.

Lemma after_timely tr : ∀ t w,
  workers_only w →
  forallb is_datetime (readings tr) = true →
  non_decreasing (t :: readings tr) = true →
  Forall (timely t) (records w) →
  Forall (timely (List.last (readings tr) t)) (records (after tr w)).
Proof.
  induction tr as [|ev tr IH]; intros t w Hw Hvalid Hmono Hdocs; [done|].
  rewrite after_cons. destruct (handle_step ev w Hw) as [Hs Hw'].
  cbn [readings fmap list_fmap] in Hvalid, Hmono |- *.
  cbn [forallb] in Hvalid. apply andb_true_iff in Hvalid as [Hnow Hvalid].
  cbn [non_decreasing] in Hmono. apply andb_true_iff in Hmono as [Hle Hmono].
  fold (readings tr) in Hvalid, Hmono |- *.
  rewrite last_cons_default.
  apply IH; [done|done|exact Hmono|]. by eapply store_step_timely.
Qed.

(** ** Validation *)

Lemma leb0_not_gt0 (a : float) :
  (a <=? 0)%float = true → (0 <? a)%float = false.
Proof.
  rewrite leb_spec, ltb_spec.
  change (Prim2SF 0) with (S754_zero false).
  destruct (Prim2SF a) as [s|s| |s m e]; try destruct s; cbn; congruence.
Qed.

Lemma validate_errors str_as_float body errors :
  errors
  = check_str "transaction_id" body ++ check_str "source_account" body
    ++ check_str "destination_account" body
    ++ check_gt0 str_as_float "amount" body
    ++ check_length 3 3 "currency" body →
  errors ≠ [] → WebhookRequest.validate str_as_float body = inl errors.
Proof.
  intros Herrors Hne. unfold WebhookRequest.validate. rewrite <- Herrors.
  by destruct errors.
Qed.

Lemma check_gt0_not_positive str_as_float k (body : dict) v a :
  body !! k = Some v →
  as_float str_as_float v = Some a →
  (a <=? 0)%float = true →
  check_gt0 str_as_float k body = [(k, greater_than)].
Proof.
  intros Hk Hv Hle. unfold check_gt0.
  by rewrite Hk, Hv, (leb0_not_gt0 a Hle).
Qed.

Lemma check_length_not_3 k (body : dict) c :
  body !! k = Some (VStr c) →
  len c ≠ 3 →
  check_length 3 3 k body = [(k, string_too_short)]
  ∨ check_length 3 3 k body = [(k, string_too_long)].
Proof.
  intros Hk Hlen. unfold check_length. rewrite Hk.
  destruct (len c <? 3)%nat eqn:Hlo; [by left|].
  destruct (3 <? len c)%nat eqn:Hhi; [by right|].
  apply Nat.ltb_ge in Hlo, Hhi. lia.
Qed.

(** C2. A body whose amount is zero or negative, be it given as a number
    or as a string that is converted to one, or whose currency has not
    exactly three characters (code points), is answered with the
    validation errors (422) and the world is left as it was: the handler
    is not called, the store is not asked anything, no record is
    created. This holds whatever the parser of numeric strings is. *)
Theorem invalid_body_rejected (str_as_float : string → option float)
  (body : dict) (ε : env) (w : world) :
  (∃ v a, body !! "amount" = Some v
          ∧ as_float str_as_float v = Some a
          ∧ (a <=? 0)%float = true)
  ∨ (∃ c, body !! "currency" = Some (VStr c) ∧ len c ≠ 3) →
  ∃ errors,
    post_webhook str_as_float body ε w = (UnprocessableEntity errors, w)
    ∧ (("amount", greater_than) ∈ errors
       ∨ ("currency", string_too_short) ∈ errors
       ∨ ("currency", string_too_long) ∈ errors).
Proof.
  intros Hbad.
  assert (("amount", greater_than)
            ∈ check_gt0 str_as_float "amount" body
          ∨ ("currency", string_too_short)
              ∈ check_length 3 3 "currency" body
          ∨ ("currency", string_too_long)
              ∈ check_length 3 3 "currency" body) as Hin.
  { destruct Hbad as [(v & a & Hv & Ha & Hle)|(c & Hc & Hlen)].
    - left. rewrite (check_gt0_not_positive _ _ _ v a); [by left|done..].
    - right. destruct (check_length_not_3 "currency" body c Hc Hlen)
        as [-> | ->]; [left|right]; by left. }
  eexists. split.
  - unfold post_webhook. erewrite validate_errors; [reflexivity|reflexivity|].
    intros Hnil. do 3 apply app_eq_nil in Hnil as [_ Hnil].
    apply app_eq_nil in Hnil as [Hamount Hcurrency].
    rewrite Hamount, Hcurrency in Hin.
    destruct Hin as [Hin|[Hin|Hin]]; by apply elem_of_nil in Hin.
  - rewrite !elem_of_app. tauto.
Qed.

(** A body with the currency given as the euro sign: one character, of
    three bytes. *)
Lemma invalid_body_rejected_witness :
  ∃ errors,
    post_webhook sample_str_as_float (sample_body 1500 "€")
      (calm (sample_time 0 0)) initial_world
    = (UnprocessableEntity errors, initial_world)
    ∧ (("amount", greater_than) ∈ errors
       ∨ ("currency", string_too_short) ∈ errors
       ∨ ("currency", string_too_long) ∈ errors).
Proof.
  apply (invalid_body_rejected sample_str_as_float (sample_body 1500 "€")).
  right. exists "€". split; [reflexivity|]. vm_compute. lia.
Defined.

(** Characters are counted, not bytes: a currency of three characters that
    takes five bytes is accepted; and an amount given as a string is
    converted. *)
Lemma validate_counts_characters :
  WebhookRequest.validate sample_str_as_float
    (<["amount" := VStr "12.5"]> (sample_body 1500 "a€b"))
  = inr {| WebhookRequest.transaction_id := "txn_abc";
           WebhookRequest.source_account := "acc_user";
           WebhookRequest.destination_account := "acc_merchant";
           WebhookRequest.amount := 12.5;
           WebhookRequest.currency := "a€b" |}.
Proof. reflexivity. Qed.

(** ** Failures of the insert *)





(** ** Startup *)



(** ** The status query *)

Lemma init_holds r (d : dict) :
  holds r d → TransactionResponse.init (delete "_id" d) = inr r.
Proof.
  intros (H1 & H2 & H3 & H4 & H5 & H6 & H7 & H8).
  unfold TransactionResponse.init.
  rewrite !lookup_delete_ne by done.
  rewrite H1, H2, H3, H4, H5, H6, H7, H8.
  destruct r as [i s dst a c st cr [p|]]; reflexivity.
Qed.

Lemma holds_not_empty r (d : dict) : holds r d → d ≠ ∅.
Proof. intros (H1 & _) ->. by rewrite lookup_empty in H1. Qed.

Lemma find_one_first transaction_id (docs : list dict) i d :
  docs !! i = Some d →
  Collection.key d = VStr transaction_id →
  (∀ j d', j < i → docs !! j = Some d' →
           Collection.key d' ≠ VStr transaction_id) →
  list_find (Collection.matches (by_transaction_id transaction_id)) docs
  = Some (i, d).
Proof.
  intros Hi Hkey Hfirst. apply list_find_Some. split_and!; [done| |].
  - by apply matches_by_transaction_id.
  - intros j d' Hj Hlt. rewrite matches_by_transaction_id. by eapply Hfirst.
Qed.

Lemma find_one_none transaction_id (docs : list dict) :
  (∀ d, d ∈ docs → Collection.key d ≠ VStr transaction_id) →
  list_find (Collection.matches (by_transaction_id transaction_id)) docs
  = None.
Proof.
  intros Hnone. apply list_find_None. apply Forall_forall.
  intros d Hd. rewrite matches_by_transaction_id. by apply Hnone.
Qed.

Lemma after_stored tr :
  Forall (λ d, ∃ r, holds r d) (records (after tr initial_world)).
Proof.
  apply (after_invariant (λ c, Forall (λ d, ∃ r, holds r d) (documents c))).
  - intros now c c'. apply store_step_stored.
  - apply workers_only_initial.
  - constructor.
Qed.

(** C6. After any run of the system, a status query that the store
    answers: when no record has the [transaction_id], the answer is 404
    with the detail "Transaction not found: " and the id, not the
    generic 500; when there is one, the answer is 200 with all eight
    fields of the (first) record of that id as they are stored. The query
    changes neither the collection nor the pool. *)
Theorem status_query (tr : list event) (transaction_id : string) (ε : env) :
  let w := after tr initial_world in
  let answer := get_transaction transaction_id ε w in
  fault ε (FindOne (by_transaction_id transaction_id)) = None →
  transactions answer.2 = transactions w
  ∧ threads answer.2 = threads w
  ∧ ((∀ d, d ∈ records w → Collection.key d ≠ VStr transaction_id) →
     answer.1
     = ErrorResponse 404 ("Transaction not found: " +:+ transaction_id))
  ∧ (∀ i d,
       records w !! i = Some d →
       Collection.key d = VStr transaction_id →
       (∀ j d', j < i → records w !! j = Some d' →
                Collection.key d' ≠ VStr transaction_id) →
       ∃ r, answer.1 = Response 200 r ∧ holds r d).
Proof.
  intros w answer Hfault. subst answer.
  unfold get_transaction, serve. rewrite run_get_transaction_status.
  pose proof (lookup_frame transaction_id ε w) as [Hc Hts].
  split_and!.
  - by destruct (lookup transaction_id ε w) as [[[]|] ?].
  - by destruct (lookup transaction_id ε w) as [[[]|] ?].
  - intros Hnone. unfold lookup, Collection.find_one. rewrite Hfault.
    fold (records w). by rewrite (find_one_none _ _ Hnone).
  - intros i d Hi Hkey Hfirst.
    pose proof (after_stored tr) as Hstored. fold w in Hstored.
    rewrite Forall_lookup in Hstored. destruct (Hstored i d Hi) as [r Hr].
    exists r. split; [|done].
    unfold lookup, Collection.find_one. rewrite Hfault. fold (records w).
    rewrite (find_one_first _ _ _ _ Hi Hkey Hfirst). cbn [fmap option_fmap option_map snd].
    rewrite bool_decide_eq_false_2 by by eapply holds_not_empty.
    by rewrite (init_holds r d Hr).
Qed.

(** ** The life of a record *)

Lemma after_lifecycle tr :
  Forall lifecycle (records (after tr initial_world)).
Proof.
  apply (after_invariant (λ c, Forall lifecycle (documents c))).
  - intros now c c'. apply store_step_lifecycle.
  - apply workers_only_initial.
  - constructor.
Qed.

(** C8. In every state the system reaches, a record is [PROCESSING] exactly
    when its [processed_at] is [None] and [PROCESSED] exactly when its
    [processed_at] is a timestamp, and it is one of the two; and a record
    that is [PROCESSED] is, after any further run, still there, the same
    record, and still [PROCESSED]. *)
Theorem status_never_goes_back (tr1 tr2 : list event) :
  let w1 := after tr1 initial_world in
  let w2 := after tr2 w1 in
  (∀ d, d ∈ records w1 →
     (d !! "status" = Some (VStr "PROCESSING")
      ∨ d !! "status" = Some (VStr "PROCESSED"))
     ∧ (d !! "status" = Some (VStr "PROCESSING")
        ↔ d !! "processed_at" = Some VNone)
     ∧ (d !! "status" = Some (VStr "PROCESSED")
        ↔ ∃ p, d !! "processed_at" = Some (VStr p)))
  ∧ (∀ j d,
       records w1 !! j = Some d →
       d !! "status" = Some (VStr "PROCESSED") →
       ∃ d', records w2 !! j = Some d'
             ∧ d' !! "_id" = d !! "_id"
             ∧ d' !! "transaction_id" = d !! "transaction_id"
             ∧ d' !! "status" = Some (VStr "PROCESSED")).
Proof.
  intros w1 w2. split.
  - intros d Hd. pose proof (after_lifecycle tr1) as Hlife.
    rewrite Forall_forall in Hlife. specialize (Hlife d Hd).
    destruct Hlife as [[Hs Hp]|[Hs [p Hp]]]; rewrite Hs, Hp.
    + split_and!; [by left|done|]. split; [done|]. by intros [? ?].
    + split_and!; [by right| |]; split; try done. by exists p.
  - intros j d Hj Hs.
    assert (workers_only w1) as Hw1
      by apply after_workers_only, workers_only_initial.
    destruct (after_grows tr2 w1 Hw1 j d Hj) as (d' & Hj' & Hframe & Hkeep).
    exists d'. split_and!; [done| | |by apply Hkeep]; by apply Hframe.
Qed.

(** ** Timestamps *)

(** ** Timestamps are read back *)

Lemma length_snoc s c :
  String.length (s +:+ String c EmptyString) = S (String.length s).
Proof.
  induction s as [|a s IH]; [done|].
  change (S (String.length (s +:+ String c EmptyString))
          = S (S (String.length s))).
  by rewrite IH.
Qed.

Lemma length_zfill w : ∀ n, String.length (zfill w n) = w.
Proof.
  induction w as [|w IH]; intros n; [done|].
  cbn [zfill]. by rewrite length_snoc, IH.
Qed.

Lemma append_inj (s1 : string) : ∀ s2 r1 r2,
  String.length s1 = String.length s2 →
  s1 +:+ r1 = s2 +:+ r2 → s1 = s2 ∧ r1 = r2.
Proof.
  induction s1 as [|a s1 IH]; intros [|b s2] r1 r2 Hlen Heq; try done.
  cbn in Hlen, Heq. injection Heq as -> Heq. injection Hlen as Hlen.
  destruct (IH s2 r1 r2 Hlen Heq) as [-> ->]. done.
Qed.

Lemma zfill_inj w : ∀ a b,
  (a < 10 ^ N.of_nat w)%N → (b < 10 ^ N.of_nat w)%N →
  zfill w a = zfill w b → a = b.
Proof.
  induction w as [|w IH]; intros a b Ha Hb Heq.
  { cbn in Ha, Hb. lia. }
  cbn [zfill] in Heq.
  apply append_inj in Heq as [Hhigh Hlow]; [|by rewrite !length_zfill].
  injection Hlow as Hlow.
  rewrite Nat2N.inj_succ, N.pow_succ_r' in Ha, Hb.
  assert (a / 10 = b / 10)%N as Hdiv.
  { apply IH; [| |done]; apply N.Div0.div_lt_upper_bound; lia. }
  assert (a mod 10 = b mod 10)%N as Hmod.
  { unfold digit in Hlow. apply (f_equal N_of_ascii) in Hlow.
    rewrite !N_ascii_embedding in Hlow.
    - lia.
    - pose proof (N.mod_upper_bound b 10). lia.
    - pose proof (N.mod_upper_bound a 10). lia. }
  rewrite (N.div_mod a 10), (N.div_mod b 10) by done. lia.
Qed.

Lemma is_datetime_bounds t :
  is_datetime t = true →
  (year t < 10 ^ 4 ∧ month t < 10 ^ 2 ∧ day t < 10 ^ 2 ∧ hour t < 10 ^ 2
   ∧ minute t < 10 ^ 2 ∧ second t < 10 ^ 2 ∧ microsecond t < 10 ^ 6)%N.
Proof.
  unfold is_datetime. rewrite !andb_true_iff, !N.leb_le, !N.ltb_lt.
  cbn. lia.
Qed.

Lemma append_assoc (s1 s2 s3 : string) :
  (s1 +:+ s2) +:+ s3 = s1 +:+ (s2 +:+ s3).
Proof.
  induction s1 as [|a s1 IH]; [done|].
  change (String a ((s1 +:+ s2) +:+ s3) = String a (s1 +:+ (s2 +:+ s3))).
  by rewrite IH.
Qed.

Lemma append_cons_inj c (s1 s2 : string) :
  String c EmptyString +:+ s1 = String c EmptyString +:+ s2 → s1 = s2.
Proof. change (String c s1 = String c s2 → s1 = s2). by intros [= ->]. Qed.

(** A timestamp is the text of one [datetime] only. *)
Lemma timestamp_inj t1 t2 :
  is_datetime t1 = true → is_datetime t2 = true →
  timestamp t1 = timestamp t2 → t1 = t2.
Proof.
  intros H1 H2 Heq.
  apply is_datetime_bounds in H1 as (Hy1 & Hm1 & Hd1 & Hh1 & Hi1 & Hs1 & Hu1).
  apply is_datetime_bounds in H2 as (Hy2 & Hm2 & Hd2 & Hh2 & Hi2 & Hs2 & Hu2).
  destruct t1 as [y1 m1 d1 h1 i1 s1 u1], t2 as [y2 m2 d2 h2 i2 s2 u2].
  cbn [year month day hour minute second microsecond] in *.
  unfold timestamp, isoformat in Heq.
  cbn [year month day hour minute second microsecond] in Heq.
  rewrite !append_assoc in Heq.
  apply append_inj in Heq as [Hy Heq]; [|by rewrite !length_zfill].
  apply append_cons_inj in Heq.
  apply append_inj in Heq as [Hm Heq]; [|by rewrite !length_zfill].
  apply append_cons_inj in Heq.
  apply append_inj in Heq as [Hd Heq]; [|by rewrite !length_zfill].
  apply append_cons_inj in Heq.
  apply append_inj in Heq as [Hh Heq]; [|by rewrite !length_zfill].
  apply append_cons_inj in Heq.
  apply append_inj in Heq as [Hi Heq]; [|by rewrite !length_zfill].
  apply append_cons_inj in Heq.
  apply append_inj in Heq as [Hs Heq]; [|by rewrite !length_zfill].
  apply (zfill_inj 4) in Hy as ->; [|done..].
  apply (zfill_inj 2) in Hm as ->; [|done..].
  apply (zfill_inj 2) in Hd as ->; [|done..].
  apply (zfill_inj 2) in Hh as ->; [|done..].
  apply (zfill_inj 2) in Hi as ->; [|done..].
  apply (zfill_inj 2) in Hs as ->; [|done..].
  f_equal.
  destruct (u1 =? 0)%N eqn:Hz1, (u2 =? 0)%N eqn:Hz2.
  - apply N.eqb_eq in Hz1, Hz2. congruence.
  - discriminate Heq.
  - discriminate Heq.
  - rewrite !append_assoc in Heq. apply append_cons_inj in Heq.
    apply append_inj in Heq as [Hu _]; [|by rewrite !length_zfill].
    by apply (zfill_inj 6) in Hu.
Qed.

(** C9. Take a run in which the clock is read as datetimes and its readings
    do not go back. A record that has a [processed_at] then has timestamps
    that are the texts of two datetimes, the one of [created_at] not after
    the one of [processed_at]; and whatever datetimes these texts are
    read back as, the first is not after the second. *)
Theorem created_before_processed (tr : list event) (d : dict) (p : string) :
  forallb is_datetime (readings tr) = true →
  non_decreasing (readings tr) = true →
  d ∈ records (after tr initial_world) →
  d !! "processed_at" = Some (VStr p) →
  (∃ tc tp,
     d !! "created_at" = Some (VStr (timestamp tc))
     ∧ p = timestamp tp
     ∧ datetime_le tc tp = true)
  ∧ (∀ tc tp,
       is_datetime tc = true → is_datetime tp = true →
       d !! "created_at" = Some (VStr (timestamp tc)) →
       p = timestamp tp →
       datetime_le tc tp = true).
Proof.
  intros Hvalid Hmono Hd Hp.
  destruct tr as [|ev tr].
  { by apply elem_of_nil in Hd. }
  assert (Forall (timely (List.last (readings (ev :: tr)) (utcnow (env_of ev))))
            (records (after (ev :: tr) initial_world))) as Htimely.
  { apply after_timely; [apply workers_only_initial|done| |constructor].
    cbn [non_decreasing readings fmap list_fmap]. fold (readings tr).
    rewrite datetime_le_refl. exact Hmono. }
  rewrite Forall_forall in Htimely.
  destruct (Htimely d Hd) as (tc & Hc & Hvc & _ & Hproc).
  destruct (Hproc p Hp) as (tp & -> & Hvp & Hle).
  split; [by exists tc, tp|].
  intros tc' tp' Hvc' Hvp' Hc' Hp'.
  assert (timestamp tc = timestamp tc') as Htc by congruence.
  apply timestamp_inj in Htc as <-; [|done..].
  apply timestamp_inj in Hp' as <-; [|done..]. done.
Qed.

(** ** The frame of the worker's update *)

Lemma settle_transactions transaction_id ε w :
  transactions (settle transaction_id ε w) = transactions w
  ∨ ∃ i d,
      list_find (Collection.matches (by_transaction_id transaction_id))
        (records w) = Some (i, d)
      ∧ transactions (settle transaction_id ε w)
        = {| documents := <[i := processed (utcnow ε) ∪ d]> (records w);
             unique_index := unique_index (transactions w) |}.
Proof.
  unfold settle, worker_failed.
  destruct (update_one_processed transaction_id (utcnow ε) (transactions w))
    as (res & c' & -> & Hc').
  destruct Hc' as [[-> _]|(i & d & Hfind & _ & -> & _)].
  - left. by repeat case_match.
  - repeat case_match; first [by left | right; by exists i, d].
Qed.

Lemma schedule_transactions i ε w :
  workers_only w →
  transactions (schedule i ε w) = transactions w
  ∨ ∃ transaction_id j d,
      threads w !! i = Some (sleeping_worker transaction_id)
      ∧ list_find (Collection.matches (by_transaction_id transaction_id))
          (records w) = Some (j, d)
      ∧ transactions (schedule i ε w)
        = {| documents := <[j := processed (utcnow ε) ∪ d]> (records w);
             unique_index := unique_index (transactions w) |}.
Proof.
  intros Hw. destruct (threads w !! i) as [p|] eqn:Hi.
  2:{ left. unfold schedule. by rewrite Hi. }
  assert (∃ transaction_id, worker_of transaction_id p) as Hp.
  { unfold workers_only in Hw. rewrite Forall_lookup in Hw. by eapply Hw. }
  destruct (schedule_worker i ε w p Hi Hp)
    as [[-> _]|(transaction_id & [[-> ->]|[-> ->]])]; [by left|by left|].
  destruct (settle_transactions transaction_id ε w)
    as [Hsame|(j & d & Hfind & Hc)]; [by left|].
  right. by exists transaction_id, j, d.
Qed.

(** C10. After any run of the system, when a thread of the pool is
    scheduled (a worker wakes up and makes its update), every record is
    still there, at its place, and all its fields other than [status] and
    [processed_at] are as before, the [_id], [transaction_id],
    [source_account], [destination_account], [amount], [currency] and
    [created_at] among them, whatever they hold; no record is added. *)
Theorem worker_writes_two_fields (tr : list event) (i : nat) (ε : env) :
  let w := after tr initial_world in
  let w' := schedule i ε w in
  length (records w') = length (records w)
  ∧ ∀ j d,
      records w !! j = Some d →
      ∃ d', records w' !! j = Some d'
            ∧ ∀ k, k ≠ "status" → k ≠ "processed_at" → d' !! k = d !! k.
Proof.
  intros w w'. subst w'.
  assert (workers_only w) as Hw
    by apply after_workers_only, workers_only_initial.
  unfold records.
  destruct (schedule_transactions i ε w Hw)
    as [->|(transaction_id & i' & d0 & _ & Hfind & ->)].
  { split; [done|]. intros j d Hj. by exists d. }
  apply find_lookup in Hfind as [Hi' _]. cbn [documents].
  split; [apply length_insert|].
  intros j d Hj. destruct (decide (j = i')) as [->|Hne].
  - assert (d = d0) as -> by (unfold records in Hi'; congruence).
    exists (processed (utcnow ε) ∪ d0). split.
    + apply list_lookup_insert_eq. by eapply lookup_lt_Some.
    + intros k Hs Hp. by apply processed_other.
  - exists d. split; [|done]. by rewrite list_lookup_insert_ne.
Qed.

(** ** The worker *)

Lemma processed_union now (d : dict) :
  processed now ∪ d
  = <["status" := VStr "PROCESSED"]>
      (<["processed_at" := VStr (timestamp now)]> d).
Proof.
  unfold processed. rewrite <- insert_union_l.
  by rewrite <- insert_union_singleton_l.
Qed.

Lemma settle_calls transaction_id ε w :
  ∃ l, calls (settle transaction_id ε w) = calls w ++ l
       ∧ l `prefix_of` worker_calls transaction_id (utcnow ε).
Proof.
  unfold settle, worker_failed.
  destruct (update_one_processed transaction_id (utcnow ε) (transactions w))
    as (res & c' & -> & _).
  repeat case_match; cbn; rewrite <- ?app_assoc; cbn;
    first
      [ by (eexists; split; [reflexivity|eexists; reflexivity])
      | by (exists []; split; [by rewrite app_nil_r|apply prefix_nil]) ].
Qed.

Lemma settle_calm transaction_id now w :
  calls (settle transaction_id (calm now) w)
  = calls w ++ worker_calls transaction_id now
  ∧ records (settle transaction_id (calm now) w)
    = match list_find (Collection.matches (by_transaction_id transaction_id))
              (records w) with
      | Some (i, d) => <[i := processed now ∪ d]> (records w)
      | None => records w
      end.
Proof.
  unfold settle, records. cbn [fault calm no_fault utcnow].
  unfold Collection.update_one.
  destruct (list_find _ _) as [[i d]|] eqn:Hfind.
  2:{ cbn. by rewrite <- !app_assoc. }
  case_bool_decide as Hsame.
  { cbn. rewrite <- !app_assoc. split; [done|].
    rewrite Hsame. symmetry. apply list_insert_id.
    by apply find_lookup in Hfind as [? _]. }
  rewrite processed_key.
  rewrite (bool_decide_eq_false_2 (Collection.key d ≠ Collection.key d))
    by (intros H; by apply H).
  rewrite andb_false_r. cbn. by rewrite <- !app_assoc.
Qed.

(** C4. A worker that is started logs its start and stands at
    [time.sleep(30)], having touched neither the collection nor any other
    call. From its wake-up on, whatever fails, its calls are a prefix of:
    the sleep of 30, the connection, the reading of the clock, one
    [update_one], the close; so no update comes before the sleep and there
    is at most one. When nothing fails they are exactly these: the one
    update has the filter [{"transaction_id": transaction_id}] alone, and
    it sets [status] to [PROCESSED] and [processed_at] to the timestamp of
    the reading on the first document with that [transaction_id], whatever
    the [status] of that document is. *)
Theorem worker_sleeps_then_updates (transaction_id : string) (ε : env)
  (w : world) :
  let started := resume (process_transaction_background transaction_id) ε w in
  let woken := resume (sleeping_worker transaction_id) ε w in
  let quiet := resume (sleeping_worker transaction_id) (calm (utcnow ε)) w in
  (started.1 = sleeping_worker transaction_id
   ∧ transactions started.2 = transactions w
   ∧ calls started.2 = calls w)
  ∧ (∃ k, sleeping_worker transaction_id = Call (TimeSleep 30) k)
  ∧ (∃ l, calls woken.2 = calls w ++ l
          ∧ l `prefix_of`
              [TimeSleep 30; Connect MONGODB_URL; UtcNow;
               UpdateOne {[ "transaction_id" := VStr transaction_id ]}
                 (dollar_set
                    {[ "status" := VStr "PROCESSED";
                       "processed_at" := VStr (timestamp (utcnow ε)) ]});
               Close])
  ∧ quiet.1 = Return tt
  ∧ calls quiet.2
    = calls w
      ++ [TimeSleep 30; Connect MONGODB_URL; UtcNow;
          UpdateOne {[ "transaction_id" := VStr transaction_id ]}
            (dollar_set
               {[ "status" := VStr "PROCESSED";
                  "processed_at" := VStr (timestamp (utcnow ε)) ]});
          Close]
  ∧ records quiet.2
    = match list_find (λ d, get "transaction_id" d = VStr transaction_id)
              (records w) with
      | Some (i, d) =>
          <[i := <["status" := VStr "PROCESSED"]>
                   (<["processed_at" := VStr (timestamp (utcnow ε))]> d)]>
            (records w)
      | None => records w
      end.
Proof.
  intros started woken quiet. subst started woken quiet.
  rewrite resume_started, !resume_sleeping. cbn [fst snd].
  split_and!; try done.
  - by eexists.
  - apply settle_calls.
  - apply settle_calm.
  - rewrite (proj2 (settle_calm _ _ _)).
    rewrite (list_find_ext
               (Collection.matches (by_transaction_id transaction_id))
               (λ d, get "transaction_id" d = VStr transaction_id)).
    2:{ intros d. apply matches_by_transaction_id. }
    destruct (list_find _ _) as [[i d]|]; [|done].
    by rewrite processed_union.
Qed.

Lemma settle_raised transaction_id ε w e :
  raised ε (worker_calls transaction_id (utcnow ε)) = Some e →
  last (log (settle transaction_id ε w))
  = Some (ERROR,
          "Error processing transaction " +:+ transaction_id +:+ ": "
          +:+ str e).
Proof.
  unfold settle, worker_failed, worker_calls. cbn [raised].
  destruct (update_one_processed transaction_id (utcnow ε) (transactions w))
    as (res & c' & -> & _).
  destruct (fault ε (TimeSleep 30)).
  { intros [= ->]. cbn. apply last_snoc. }
  destruct (fault ε (Connect _)).
  { intros [= ->]. cbn. apply last_snoc. }
  destruct (fault ε (UpdateOne _ _)).
  { intros [= ->]. cbn. apply last_snoc. }
  destruct (fault ε Close); [|done].
  intros [= ->]. cbn. apply last_snoc.
Qed.

Lemma settle_not_raised transaction_id ε w res c' :
  raised ε (worker_calls transaction_id (utcnow ε)) = None →
  Collection.update_one (by_transaction_id transaction_id)
    (dollar_set (processed (utcnow ε))) (transactions w) = inr (res, c') →
  transactions (settle transaction_id ε w) = c'
  ∧ calls (settle transaction_id ε w)
    = calls w ++ worker_calls transaction_id (utcnow ε)
  ∧ log (settle transaction_id ε w)
    = log w
      ++ [if (0 <? modified_count res)%nat
          then (INFO,
                "Transaction processed successfully: " +:+ transaction_id)
          else (WARNING,
                "Failed to update transaction: " +:+ transaction_id)].
Proof.
  unfold settle, worker_calls. cbn [raised]. intros Hraised ->.
  destruct (fault ε (TimeSleep 30)); [done|].
  destruct (fault ε (Connect _)); [done|].
  destruct (fault ε (UpdateOne _ _)); [done|].
  destruct (fault ε Close); [done|].
  destruct (0 <? modified_count res)%nat; cbn; by rewrite <- !app_assoc.
Qed.

(** C5. A worker that wakes up returns, whatever happens: its thread ends
    with [Return], not with an exception. The other threads of the pool are
    as before, no record is added, and the records of other
    [transaction_id]s are as before. When one of its calls raises, the
    last thing it does is to log the error with the text of the exception.
    When none raises and the update modifies no record, the collection is
    as before, the worker logs the warning "Failed to update transaction"
    and nothing else, and its calls are the usual ones, with one
    [update_one]: no second attempt. *)
Theorem worker_failure_is_contained (w : world) (i : nat)
  (transaction_id : string) (ε : env) :
  let w' := schedule i ε w in
  let upd := dollar_set (processed (utcnow ε)) in
  threads w !! i = Some (sleeping_worker transaction_id) →
  threads w' !! i = Some (Return tt)
  ∧ length (threads w') = length (threads w)
  ∧ (∀ j, j ≠ i → threads w' !! j = threads w !! j)
  ∧ length (records w') = length (records w)
  ∧ (∀ j d,
       records w !! j = Some d →
       get "transaction_id" d ≠ VStr transaction_id →
       records w' !! j = Some d)
  ∧ (∀ e,
       raised ε (worker_calls transaction_id (utcnow ε)) = Some e →
       last (log w')
       = Some (ERROR,
               "Error processing transaction " +:+ transaction_id +:+ ": "
               +:+ str e))
  ∧ (∀ res c',
       raised ε (worker_calls transaction_id (utcnow ε)) = None →
       Collection.update_one (by_transaction_id transaction_id) upd
         (transactions w) = inr (res, c') →
       modified_count res = 0 →
       transactions w' = transactions w
       ∧ log w'
         = log w
           ++ [(WARNING, "Failed to update transaction: " +:+ transaction_id)]
       ∧ calls w' = calls w ++ worker_calls transaction_id (utcnow ε)).
Proof.
  intros w' upd Hi. subst w' upd. unfold schedule. rewrite Hi.
  rewrite resume_sleeping. cbn beta iota zeta.
  rewrite settle_threads. unfold records.
  cbn [threads transactions log calls set_threads].
  split_and!.
  - apply list_lookup_insert_eq. by eapply lookup_lt_Some.
  - apply length_insert.
  - intros j Hne. by rewrite list_lookup_insert_ne.
  - destruct (settle_transactions transaction_id ε w)
      as [->|(j & d & _ & ->)]; [done|]. apply length_insert.
  - intros j d Hj Hother.
    destruct (settle_transactions transaction_id ε w)
      as [->|(j' & d' & Hfind & ->)]; [done|].
    apply find_lookup in Hfind as [Hj' Hmatch].
    apply matches_by_transaction_id in Hmatch.
    cbn [documents]. rewrite list_lookup_insert_ne; [done|].
    intros ->. unfold records, Collection.key in *. congruence.
  - intros e. apply settle_raised.
  - intros res c' Hnone Hupd Hzero.
    destruct (settle_not_raised _ _ _ _ _ Hnone Hupd) as (-> & -> & ->).
    rewrite Hzero. cbn [Nat.ltb Nat.leb]. split_and!; try done.
    destruct (update_one_processed transaction_id (utcnow ε)
                (transactions w)) as (res' & c'' & Hupd' & Hcases).
    rewrite Hupd in Hupd'. injection Hupd' as <- <-.
    destruct Hcases as [[-> _]|(? & ? & _ & _ & _ & Hone)]; [done|].
    congruence.
Qed.

(** ** Idempotent intake *)

Lemma intake_cases webhook_data ε w :
  let transaction_id := WebhookRequest.transaction_id webhook_data in
  let doc := transaction_doc webhook_data (utcnow ε) in
  let w' := (intake webhook_data ε w).2 in
  let appended :=
    {| documents :=
         records w ++ [Collection.with_id (length (records w)) doc];
       unique_index := unique_index (transactions w) |} in
  (transactions w' = transactions w ∧ threads w' = threads w
   ∧ calls w' = calls w ++ [UtcNow]
   ∧ is_Some (fault ε (InsertOne doc)))
  ∨ (transactions w' = transactions w ∧ threads w' = threads w
     ∧ calls w' = calls w ++ [UtcNow; InsertOne doc]
     ∧ fault ε (InsertOne doc) = None
     ∧ unique_index (transactions w) = true
     ∧ VStr transaction_id ∈ Collection.keys (records w))
  ∨ (transactions w' = appended ∧ threads w' = threads w
     ∧ calls w' = calls w ++ [UtcNow; InsertOne doc]
     ∧ (unique_index (transactions w) = true →
        VStr transaction_id ∉ Collection.keys (records w)))
  ∨ (transactions w' = appended
     ∧ threads w'
       = threads w ++ [process_transaction_background transaction_id]
     ∧ calls w' = calls w ++ [UtcNow; InsertOne doc; ThreadStart transaction_id]
     ∧ (unique_index (transactions w) = true →
        VStr transaction_id ∉ Collection.keys (records w))).
Proof.
  intros transaction_id doc w' appended. subst w' appended. unfold intake.
  fold transaction_id doc.
  pose proof (webhook_failed_frame transaction_id) as Hframe.
  destruct (fault ε (InsertOne doc)) as [e|] eqn:Hfault.
  { left. destruct (Hframe e (carried_out UtcNow (emit INFO
      ("Received webhook for transaction: " +:+ transaction_id) w)))
      as (-> & -> & ->). eauto. }
  destruct (Collection.insert_one doc (transactions w)) as [e|col] eqn:Hins.
  { right. left. apply insert_one_inl in Hins as (-> & Hu & Hin).
    destruct (Hframe (DuplicateKeyError (Collection.E11000 (Collection.key doc)))
      (carried_out (InsertOne doc) (carried_out UtcNow (emit INFO
        ("Received webhook for transaction: " +:+ transaction_id) w))))
      as (-> & -> & ->).
    cbn. rewrite <- app_assoc. eauto 10. }
  apply insert_one_inr in Hins as [-> Hfresh].
  destruct (fault ε (ThreadStart transaction_id)) as [e|] eqn:Hthread.
  { right. right. left.
    destruct (Hframe e
      (emit INFO ("New transaction created: " +:+ transaction_id)
         (set_transactions
            {| documents :=
                 documents (transactions w)
                 ++ [Collection.with_id (length (documents (transactions w)))
                       doc];
               unique_index := unique_index (transactions w) |}
            (carried_out (InsertOne doc) (carried_out UtcNow (emit INFO
               ("Received webhook for transaction: " +:+ transaction_id)
               w))))))
      as (-> & -> & ->).
    cbn. rewrite <- app_assoc. eauto 10. }
  right. right. right. cbn. rewrite <- !app_assoc. eauto 10.
Qed.

Lemma intake_calm webhook_data ε w :
  (∀ c, fault ε c = None) → (intake webhook_data ε w).1 = inr accepted.
Proof.
  intros Hcalm. unfold intake. rewrite !Hcalm.
  destruct (Collection.insert_one _ _) as [e|col] eqn:Hins; [|done].
  apply insert_one_inl in Hins as (-> & _ & _).
  unfold webhook_failed. cbn [str]. by rewrite E11000_duplicate_key.
Qed.

Lemma filter_none {A} (P : A → Prop) `{∀ x, Decision (P x)} (l : list A) :
  Forall (λ x, ¬ P x) l → filter P l = [].
Proof.
  induction 1 as [|x l Hx Hl IH]; [done|]. by rewrite filter_cons_False.
Qed.

Lemma dispatched_calls transaction_id w w' l :
  calls w' = calls w ++ l →
  Forall (λ c, c ≠ ThreadStart transaction_id) l →
  dispatched transaction_id w' = dispatched transaction_id w.
Proof.
  intros Hcalls Hl. unfold dispatched. rewrite Hcalls, filter_app, length_app.
  rewrite (filter_none _ l); [cbn; lia|]. done.
Qed.

Lemma dispatched_started transaction_id tid w w' l :
  calls w' = calls w ++ l ++ [ThreadStart transaction_id] →
  Forall (λ c, c ≠ ThreadStart tid) l →
  dispatched tid w'
  = dispatched tid w + (if decide (transaction_id = tid) then 1 else 0).
Proof.
  intros Hcalls Hl. unfold dispatched.
  rewrite Hcalls, !filter_app, !length_app.
  rewrite (filter_none _ l) by done.
  rewrite filter_cons, filter_nil.
  destruct (decide (transaction_id = tid)) as [->|Hne].
  - by rewrite decide_True.
  - rewrite decide_False; [done|]. congruence.
Qed.

Lemma stored_keys transaction_id w w' :
  Collection.keys (records w') = Collection.keys (records w) →
  stored transaction_id w' = stored transaction_id w.
Proof. unfold stored. by intros ->. Qed.

Lemma stored_appended transaction_id tid w w' :
  Collection.keys (records w')
  = Collection.keys (records w) ++ [VStr transaction_id] →
  stored tid w'
  = stored tid w + (if decide (transaction_id = tid) then 1 else 0).
Proof.
  unfold stored. intros ->. rewrite filter_app, length_app.
  rewrite filter_cons, filter_nil.
  destruct (decide (transaction_id = tid)) as [->|Hne].
  - by rewrite decide_True.
  - rewrite decide_False; [done|]. congruence.
Qed.

Lemma stored_positive transaction_id w :
  0 < stored transaction_id w
  ↔ VStr transaction_id ∈ Collection.keys (records w).
Proof.
  unfold stored. split.
  - intros Hpos.
    destruct (filter _ _) as [|k ks] eqn:Hfilter; [cbn in Hpos; lia|].
    assert (k ∈ filter (λ k, k = VStr transaction_id)
                  (Collection.keys (records w))) as Hk
      by (rewrite Hfilter; left).
    apply list_elem_of_filter in Hk as [-> Hk]. done.
  - intros Hin.
    assert (VStr transaction_id
              ∈ filter (λ k, k = VStr transaction_id)
                  (Collection.keys (records w))) as Hk
      by by apply list_elem_of_filter.
    destruct (filter _ _); [by apply elem_of_nil in Hk|cbn; lia].
Qed.

Lemma NoDup_filter_eq {A} `{EqDecision A} (x : A) (l : list A) :
  NoDup l → (length (filter (λ k, k = x) l) ≤ 1)%nat.
Proof.
  induction 1 as [|y l Hy Hl IH]; [cbn; lia|].
  rewrite filter_cons. destruct (decide (y = x)) as [->|Hne]; [|done].
  rewrite (filter_none _ l); [cbn; lia|].
  apply Forall_forall. intros z Hz ->. done.
Qed.

Lemma stored_at_most_one transaction_id w :
  index_sound (transactions w) →
  unique_index (transactions w) = true →
  (stored transaction_id w ≤ 1)%nat.
Proof. intros Hsound Hu. by apply NoDup_filter_eq, Hsound. Qed.

Lemma keys_appended (docs : list dict) webhook_data now :
  Collection.keys
    (docs ++ [Collection.with_id (length docs) (transaction_doc webhook_data now)])
  = Collection.keys docs ++ [VStr (WebhookRequest.transaction_id webhook_data)].
Proof.
  unfold Collection.keys. rewrite fmap_app. cbn [fmap list_fmap].
  by rewrite with_id_key.
Qed.

Lemma worker_calls_no_start transaction_id now tid l :
  l `prefix_of` worker_calls transaction_id now →
  Forall (λ c, c ≠ ThreadStart tid) l.
Proof.
  intros [k Hk].
  assert (Forall (λ c, c ≠ ThreadStart tid)
            (worker_calls transaction_id now)) as Hall
    by (repeat constructor; done).
  rewrite Hk in Hall. by apply Forall_app in Hall as [? _].
Qed.

(** One event adds at most one record and at most one worker for a
    [transaction_id], and a worker only together with a record. *)
Lemma handle_counts ev w transaction_id :
  workers_only w →
  (stored transaction_id w ≤ stored transaction_id (handle ev w).2)%nat
  ∧ (dispatched transaction_id (handle ev w).2 + stored transaction_id w
     ≤ dispatched transaction_id w + stored transaction_id (handle ev w).2)%nat.
Proof.
  intros Hw. destruct ev as [ε|webhook_data ε|tid ε|i ε].
  - cbn [handle]. unfold startup. rewrite run_startup_event. cbn [snd].
    assert (stored transaction_id (create_indexes ε w)
            = stored transaction_id w) as ->.
    { apply stored_keys. unfold create_indexes, records.
      repeat case_match; try done.
      by apply create_index_inr in H0 as [-> _]. }
    assert (dispatched transaction_id (create_indexes ε w)
            = dispatched transaction_id w) as ->; [|lia].
    unfold create_indexes.
    repeat case_match;
      first [ reflexivity
            | eapply dispatched_calls;
                [reflexivity|repeat constructor; done] ].
  - cbn [handle]. unfold serve. rewrite run_receive_webhook.
    assert ((let '(r, w') :=
               match intake webhook_data ε w with
               | (inl (HTTPException code detail), w') =>
                   (ErrorResponse code detail, w')
               | (inl _, w') => (InternalServerError, w')
               | (inr a, w') => (Response HTTP_202_ACCEPTED a, w')
               end in (WebhookReply r, w')).2
            = (intake webhook_data ε w).2) as ->.
    { by destruct (intake webhook_data ε w) as [[[]|] ?]. }
    set (w' := (intake webhook_data ε w).2).
    set (tid := WebhookRequest.transaction_id webhook_data).
    destruct (intake_cases webhook_data ε w)
      as [(Hc & _ & Hcalls & _)|[(Hc & _ & Hcalls & _)
          |[(Hc & _ & Hcalls & _)|(Hc & _ & Hcalls & _)]]];
      fold w' tid in Hc, Hcalls.
    + assert (stored transaction_id w' = stored transaction_id w) as ->
        by (apply stored_keys; unfold records; by rewrite Hc).
      assert (dispatched transaction_id w' = dispatched transaction_id w)
        as -> by (eapply dispatched_calls;
                  [exact Hcalls|repeat constructor; done]).
      lia.
    + assert (stored transaction_id w' = stored transaction_id w) as ->
        by (apply stored_keys; unfold records; by rewrite Hc).
      assert (dispatched transaction_id w' = dispatched transaction_id w)
        as -> by (eapply dispatched_calls;
                  [exact Hcalls|repeat constructor; done]).
      lia.
    + assert (stored transaction_id w'
              = stored transaction_id w
                + (if decide (tid = transaction_id) then 1 else 0)) as ->
        by (apply stored_appended; unfold records; rewrite Hc;
            apply keys_appended).
      assert (dispatched transaction_id w' = dispatched transaction_id w)
        as -> by (eapply dispatched_calls;
                  [exact Hcalls|repeat constructor; done]).
      lia.
    + assert (stored transaction_id w'
              = stored transaction_id w
                + (if decide (tid = transaction_id) then 1 else 0)) as ->
        by (apply stored_appended; unfold records; rewrite Hc;
            apply keys_appended).
      assert (dispatched transaction_id w'
              = dispatched transaction_id w
                + (if decide (tid = transaction_id) then 1 else 0)) as ->
        by (eapply (dispatched_started tid transaction_id w w'
                      [UtcNow;
                       InsertOne (transaction_doc webhook_data (utcnow ε))]);
            [exact Hcalls|repeat constructor; done]).
      lia.
  - cbn [handle]. unfold get_transaction, serve.
    rewrite run_get_transaction_status.
    assert ((let '(r, w') :=
               match lookup tid ε w with
               | (inl (HTTPException code detail), w') =>
                   (ErrorResponse code detail, w')
               | (inl _, w') => (InternalServerError, w')
               | (inr a, w') => (Response 200 a, w')
               end in (StatusReply r, w')).2
            = (lookup tid ε w).2) as ->.
    { by destruct (lookup tid ε w) as [[[]|] ?]. }
    assert (stored transaction_id (lookup tid ε w).2
            = stored transaction_id w) as ->.
    { apply stored_keys. unfold records.
      by rewrite (proj1 (lookup_frame _ _ _)). }
    assert (dispatched transaction_id (lookup tid ε w).2
            = dispatched transaction_id w) as ->; [|lia].
    unfold lookup.
    repeat case_match; cbn [snd];
      first [ reflexivity
            | eapply dispatched_calls;
                [reflexivity|repeat constructor; done] ].
  - cbn [handle snd].
    destruct (threads w !! i) as [p|] eqn:Hi.
    2:{ unfold schedule. rewrite Hi. lia. }
    assert (∃ tid, worker_of tid p) as Hp.
    { unfold workers_only in Hw. rewrite Forall_lookup in Hw. by eapply Hw. }
    destruct (schedule_worker i ε w p Hi Hp)
      as [[-> _]|(tid & [[-> ->]|[-> ->]])]; [lia| |].
    + assert (stored transaction_id
                (set_threads (<[i:=sleeping_worker tid]> (threads w))
                   (emit INFO
                      ("Starting background processing for transaction: "
                       +:+ tid) w))
              = stored transaction_id w) as -> by reflexivity.
      assert (dispatched transaction_id
                (set_threads (<[i:=sleeping_worker tid]> (threads w))
                   (emit INFO
                      ("Starting background processing for transaction: "
                       +:+ tid) w))
              = dispatched transaction_id w) as -> by reflexivity.
      lia.
    + destruct (settle_calls tid ε w) as (l & Hcalls & Hprefix).
      set (w' := set_threads (<[i:=Return ()]> (threads w)) (settle tid ε w)).
      assert (dispatched transaction_id w' = dispatched transaction_id w)
        as -> by (eapply dispatched_calls;
                  [exact Hcalls|by eapply worker_calls_no_start]).
      assert (stored transaction_id w' = stored transaction_id w) as ->;
        [|lia].
      apply stored_keys. unfold records. cbn [transactions set_threads w'].
      destruct (settle_transactions tid ε w) as [->|(j & d & Hfind & ->)];
        [done|].
      apply find_lookup in Hfind as [Hj _]. by apply keys_settle.
Qed.

Lemma after_counts tr : ∀ w transaction_id,
  workers_only w →
  (stored transaction_id w ≤ stored transaction_id (after tr w))%nat
  ∧ (dispatched transaction_id (after tr w) + stored transaction_id w
     ≤ dispatched transaction_id w + stored transaction_id (after tr w))%nat.
Proof.
  induction tr as [|ev tr IH]; intros w transaction_id Hw.
  { unfold after. cbn. lia. }
  rewrite after_cons.
  destruct (handle_step ev w Hw) as [_ Hw'].
  pose proof (handle_counts ev w transaction_id Hw).
  pose proof (IH (handle ev w).2 transaction_id Hw'). lia.
Qed.

Lemma after_index_sound tr w :
  workers_only w →
  index_sound (transactions w) →
  index_sound (transactions (after tr w)).
Proof.
  intros Hw Hsound. apply (after_invariant index_sound); try done.
  intros now c c'. apply store_step_index_sound.
Qed.

Lemma after_unique_index tr w :
  workers_only w →
  unique_index (transactions w) = true →
  unique_index (transactions (after tr w)) = true.
Proof.
  intros Hw Hu.
  apply (after_invariant (λ c, unique_index c = true)); try done.
  intros now c c' Hstep Hc.
  by destruct (store_step_unique_index _ _ _ Hstep) as [->|[-> _]].
Qed.

Lemma replies_lookup tr : ∀ i ev w,
  tr !! i = Some ev →
  replies tr w !! i = Some (handle ev (after (take i tr) w)).1.
Proof.
  induction tr as [|ev' tr IH]; intros i ev w Hi; [done|].
  rewrite replies_cons. destruct i as [|i].
  - cbn in Hi. injection Hi as ->. done.
  - cbn [take]. rewrite after_cons. cbn [lookup list_lookup].
    by apply IH.
Qed.

Lemma intake_duplicate webhook_data ε w :
  unique_index (transactions w) = true →
  VStr (WebhookRequest.transaction_id webhook_data)
    ∈ Collection.keys (records w) →
  transactions (intake webhook_data ε w).2 = transactions w
  ∧ threads (intake webhook_data ε w).2 = threads w.
Proof.
  intros Hu Hin.
  destruct (intake_cases webhook_data ε w)
    as [(Hc & Ht & _)|[(Hc & Ht & _)|[(_ & _ & _ & Hfresh)
        |(_ & _ & _ & Hfresh)]]]; try done; by destruct (Hfresh Hu).
Qed.

Lemma handle_webhook webhook_data ε w :
  (handle (Webhook webhook_data ε) w).2 = (intake webhook_data ε w).2
  ∧ ((intake webhook_data ε w).1 = inr accepted →
     (handle (Webhook webhook_data ε) w).1
     = WebhookReply (Response 202 accepted)).
Proof.
  cbn [handle]. unfold serve. rewrite run_receive_webhook.
  destruct (intake webhook_data ε w) as [[[]|] ?]; split; try done.
  by intros [= ->].
Qed.

Lemma intake_stored webhook_data ε w :
  (∀ c, fault ε c = None) →
  VStr (WebhookRequest.transaction_id webhook_data)
    ∈ Collection.keys (records (intake webhook_data ε w).2).
Proof.
  intros Hcalm.
  destruct (intake_cases webhook_data ε w)
    as [(_ & _ & _ & Hf)|[(Hc & _ & _ & _ & _ & Hin)|[(Hc & _)|(Hc & _)]]].
  - rewrite Hcalm in Hf. by destruct Hf.
  - unfold records. by rewrite Hc.
  - unfold records. rewrite Hc. cbn [documents].
    rewrite keys_appended, elem_of_app, list_elem_of_singleton. by right.
  - unfold records. rewrite Hc. cbn [documents].
    rewrite keys_appended, elem_of_app, list_elem_of_singleton. by right.
Qed.

(** C1. Take any run of the system after which the unique index exists,
    and any further run in which the environment makes no call of an
    intake for a given [transaction_id] fail; other requests, queries and
    workers may come in between and may fail. Then every intake for that
    [transaction_id] is answered 202 with the acknowledgment; if there was
    one, exactly one record with that [transaction_id] is stored at the
    end; at most one worker was ever started for it; and an intake that
    finds a record of that [transaction_id] leaves the collection and the
    pool of threads as they were. *)
Theorem idempotent_intake (tr0 tr : list event) (transaction_id : string) :
  let w := after tr0 initial_world in
  unique_index (transactions w) = true →
  (∀ webhook_data ε,
     Webhook webhook_data ε ∈ tr →
     WebhookRequest.transaction_id webhook_data = transaction_id →
     ∀ c, fault ε c = None) →
  (∀ i webhook_data ε,
     tr !! i = Some (Webhook webhook_data ε) →
     WebhookRequest.transaction_id webhook_data = transaction_id →
     replies tr w !! i = Some (WebhookReply (Response 202 accepted)))
  ∧ ((∃ webhook_data ε,
        Webhook webhook_data ε ∈ tr
        ∧ WebhookRequest.transaction_id webhook_data = transaction_id) →
     stored transaction_id (after tr w) = 1)
  ∧ (dispatched transaction_id (after tr w) ≤ 1)%nat
  ∧ (∀ tr1 webhook_data ε tr2,
       tr = tr1 ++ Webhook webhook_data ε :: tr2 →
       WebhookRequest.transaction_id webhook_data = transaction_id →
       0 < stored transaction_id (after tr1 w) →
       transactions (after (tr1 ++ [Webhook webhook_data ε]) w)
       = transactions (after tr1 w)
       ∧ threads (after (tr1 ++ [Webhook webhook_data ε]) w)
         = threads (after tr1 w)).
Proof.
  intros w Hu Hcalm.
  assert (workers_only w) as Hw
    by apply after_workers_only, workers_only_initial.
  assert (index_sound (transactions w)) as Hsound.
  { apply after_index_sound; [apply workers_only_initial|]. intros [=]. }
  assert (∀ tr', (stored transaction_id (after tr' w) ≤ 1)%nat) as Hone.
  { intros tr'. apply stored_at_most_one.
    - by apply after_index_sound.
    - by apply after_unique_index. }
  split_and!.
  - intros i webhook_data ε Hi Htid.
    rewrite (replies_lookup tr i _ w Hi).
    f_equal. apply handle_webhook, intake_calm.
    eapply Hcalm; [|done]. by eapply list_elem_of_lookup_2.
  - intros (webhook_data & ε & Hin & Htid).
    apply list_elem_of_split in Hin as (tr1 & tr2 & ->).
    specialize (Hone (tr1 ++ Webhook webhook_data ε :: tr2)).
    cut (0 < stored transaction_id
               (after (tr1 ++ Webhook webhook_data ε :: tr2) w)); [lia|].
    rewrite after_app, after_cons.
    rewrite (proj1 (handle_webhook _ _ _)).
    set (w1 := after tr1 w).
    assert (workers_only (intake webhook_data ε w1).2) as Hw2.
    { rewrite <- (proj1 (handle_webhook _ _ _)).
      apply handle_step. by apply after_workers_only. }
    pose proof (proj1 (after_counts tr2 _ transaction_id Hw2)) as Hmono.
    cut (0 < stored transaction_id (intake webhook_data ε w1).2); [lia|].
    apply stored_positive. rewrite <- Htid. apply intake_stored.
    eapply Hcalm; [|done]. rewrite elem_of_app, elem_of_cons. auto.
  - specialize (Hone tr).
    pose proof (proj2 (after_counts tr0 initial_world transaction_id
                         workers_only_initial)) as H0.
    pose proof (proj2 (after_counts tr w transaction_id Hw)) as H1.
    fold w in H0.
    assert (dispatched transaction_id initial_world = 0) as Hd0 by done.
    assert (stored transaction_id initial_world = 0) as Hs0 by done.
    lia.
  - intros tr1 webhook_data ε tr2 -> Htid Hpos.
    rewrite after_app. unfold after at 1 4. cbn [run_trace].
    fold (after tr1 w).
    destruct (handle (Webhook webhook_data ε) (after tr1 w)) as [r w2] eqn:Hh.
    cbn [snd].
    pose proof (proj1 (handle_webhook webhook_data ε (after tr1 w))) as Hw2.
    rewrite Hh in Hw2. cbn [snd] in Hw2. subst w2.
    apply intake_duplicate.
    + by apply after_unique_index.
    + rewrite Htid. by apply stored_positive.
Qed.

(** ** The theorems at work on a sample run *)

(** On the sample run: both webhooks are acknowledged, one record is
    stored, one worker is started, and the second webhook leaves the
    collection as it was. *)
Lemma idempotent_intake_witness :
  let w := after [Startup (calm (sample_time 0 0))] initial_world in
  let tr := tail sample_run in
  replies tr w !! 0 = Some (WebhookReply (Response 202 accepted))
  ∧ replies tr w !! 1 = Some (WebhookReply (Response 202 accepted))
  ∧ stored "txn_abc" (after tr w) = 1
  ∧ (dispatched "txn_abc" (after tr w) ≤ 1)%nat
  ∧ transactions (after (take 2 tr) w) = transactions (after (take 1 tr) w).
Proof.
  intros w tr.
  assert (unique_index (transactions w) = true) as Hu by reflexivity.
  assert (∀ webhook_data ε,
            Webhook webhook_data ε ∈ tr →
            WebhookRequest.transaction_id webhook_data = "txn_abc" →
            ∀ c, fault ε c = None) as Hcalm.
  { intros webhook_data ε Hin _ c. subst tr. cbn [tail sample_run] in Hin.
    repeat (apply elem_of_cons in Hin as [Hin|Hin];
            [try discriminate Hin; injection Hin as -> ->; reflexivity|]).
    by apply elem_of_nil in Hin. }
  destruct (idempotent_intake [Startup (calm (sample_time 0 0))] tr "txn_abc"
              Hu Hcalm) as (Haccepted & Hstored & Hdispatched & Hsame).
  split_and!.
  - by eapply (Haccepted 0).
  - by eapply (Haccepted 1).
  - apply Hstored. do 2 eexists. split; [left|]. reflexivity.
  - exact Hdispatched.
  - refine (proj1 (Hsame (take 1 tr) _ _ (drop 2 tr) eq_refl eq_refl _)).
    vm_compute. lia.
Defined.

(** On the sample run, with an update that fails: the worker returns, no
    record is added, and the error is logged. *)
Lemma worker_failure_is_contained_witness :
  let w := after sample_run_sleeping initial_world in
  let e := OtherException "AutoReconnect" "connection closed" in
  let ε := failing_with is_update e (sample_time 0 31) in
  threads w !! 0 = Some (sleeping_worker "txn_abc")
  ∧ threads (schedule 0 ε w) !! 0 = Some (Return tt)
  ∧ length (records (schedule 0 ε w)) = length (records w)
  ∧ last (log (schedule 0 ε w))
    = Some (ERROR,
            "Error processing transaction txn_abc: connection closed").
Proof.
  intros w e ε.
  assert (threads w !! 0 = Some (sleeping_worker "txn_abc")) as Hi
    by reflexivity.
  destruct (worker_failure_is_contained w 0 "txn_abc" ε Hi)
    as (Hreturned & _ & _ & Hlength & _ & Hlogged & _).
  split_and!; [exact Hi|exact Hreturned|exact Hlength|].
  apply (Hlogged e). reflexivity.
Defined.

(** After the sample run: an unknown id is not found, and the known one is
    returned with its fields. *)
Lemma status_query_witness :
  let w := after sample_run initial_world in
  let ε := calm (sample_time 1 0) in
  (get_transaction "txn_other" ε w).1
  = ErrorResponse 404 "Transaction not found: txn_other"
  ∧ ∃ r, (get_transaction "txn_abc" ε w).1 = Response 200 r
         ∧ holds r (default ∅ (records w !! 0)).
Proof.
  intros w ε.
  destruct (status_query sample_run "txn_other" ε eq_refl)
    as (_ & _ & Hnone & _).
  destruct (status_query sample_run "txn_abc" ε eq_refl)
    as (_ & _ & _ & Hsome).
  fold w in Hnone, Hsome. split.
  - apply Hnone. intros d Hd Hkey.
    assert (Collection.keys (records w) = [VStr "txn_abc"]) as Hkeys
      by (vm_compute; reflexivity).
    assert (Collection.key d ∈ Collection.keys (records w)) as Hin
      by (by apply list_elem_of_fmap_2).
    rewrite Hkeys, Hkey in Hin.
    apply list_elem_of_singleton in Hin. discriminate Hin.
  - apply (Hsome 0).
    + vm_compute. reflexivity.
    + vm_compute. reflexivity.
    + intros j d' Hj. lia.
Defined.

(** After the sample run the record is [PROCESSED], and it stays so when
    the webhook comes again. *)
Lemma status_never_goes_back_witness :
  let w1 := after sample_run initial_world in
  let w2 :=
    after [Webhook (sample_request "txn_abc" "user" 1500)
             (calm (sample_time 2 0));
           Schedule 0 (calm (sample_time 2 0))] w1 in
  let d := default ∅ (records w1 !! 0) in
  d !! "status" = Some (VStr "PROCESSED")
  ∧ ∃ d', records w2 !! 0 = Some d'
          ∧ d' !! "_id" = d !! "_id"
          ∧ d' !! "transaction_id" = d !! "transaction_id"
          ∧ d' !! "status" = Some (VStr "PROCESSED").
Proof.
  intros w1 w2 d.
  assert (d !! "status" = Some (VStr "PROCESSED")) as Hd by reflexivity.
  split; [exact Hd|].
  exact (proj2 (status_never_goes_back sample_run
                  [Webhook (sample_request "txn_abc" "user" 1500)
                     (calm (sample_time 2 0));
                   Schedule 0 (calm (sample_time 2 0))])
           0 d eq_refl Hd).
Defined.

(** After the sample run the record was created at 09:00:01 and processed
    at 09:00:31. *)
Lemma created_before_processed_witness :
  let d := default ∅ (records (after sample_run initial_world) !! 0) in
  (∃ tc tp,
     d !! "created_at" = Some (VStr (timestamp tc))
     ∧ "2024-05-17T09:00:31.000250Z" = timestamp tp
     ∧ datetime_le tc tp = true)
  ∧ datetime_le (sample_time 0 1) (sample_time 0 31) = true.
Proof.
  intros d.
  assert (d ∈ records (after sample_run initial_world)) as Hd
    by (apply (list_elem_of_lookup_2 _ 0); reflexivity).
  destruct (created_before_processed sample_run d
              "2024-05-17T09:00:31.000250Z" eq_refl eq_refl Hd eq_refl)
    as [Hsome Hall].
  split; [exact Hsome|].
  by apply Hall.
Defined.

(** On the sample run the update of the worker keeps the amount, the
    creation time and the id of the record. *)
Lemma worker_writes_two_fields_witness :
  let w := after sample_run_sleeping initial_world in
  let w' := schedule 0 (calm (sample_time 0 31)) w in
  let d := default ∅ (records w !! 0) in
  ∃ d', records w' !! 0 = Some d'
        ∧ d' !! "amount" = d !! "amount"
        ∧ d' !! "created_at" = d !! "created_at"
        ∧ d' !! "transaction_id" = d !! "transaction_id".
Proof.
  intros w w' d.
  destruct (proj2 (worker_writes_two_fields sample_run_sleeping 0
                     (calm (sample_time 0 31))) 0 d eq_refl)
    as (d' & Hd' & Hsame).
  exists d'. split_and!; [exact Hd'| | |]; by apply Hsame.
Defined.

(** * Further properties of the program *)

(** ** What validation lets through *)

(** A body that lacks one of the five fields is answered 422 with the error
    [missing] for that field, and the world is left as it was. *)
Theorem missing_field_rejected (str_as_float : string → option float)
  (body : dict) (k : string) (ε : env) (w : world) :
  k ∈ webhook_fields →
  body !! k = None →
  ∃ errors,
    post_webhook str_as_float body ε w = (UnprocessableEntity errors, w)
    ∧ (k, missing) ∈ errors.
Proof.
  intros Hk Hnone.
  assert ((k, missing)
            ∈ check_str "transaction_id" body ++ check_str "source_account" body
              ++ check_str "destination_account" body
              ++ check_gt0 str_as_float "amount" body
              ++ check_length 3 3 "currency" body)
    as Hin.
  { unfold webhook_fields in Hk. rewrite !elem_of_app.
    repeat (apply elem_of_cons in Hk as [->|Hk]);
      [| | | | |by apply elem_of_nil in Hk].
    - left. unfold check_str. rewrite Hnone. by left.
    - right. left. unfold check_str. rewrite Hnone. by left.
    - do 2 right. left. unfold check_str. rewrite Hnone. by left.
    - do 3 right. left. unfold check_gt0. rewrite Hnone. by left.
    - do 4 right. unfold check_length. rewrite Hnone. by left. }
  eexists. split; [|exact Hin].
  unfold post_webhook. erewrite validate_errors; [reflexivity|reflexivity|].
  intros Hnil. rewrite Hnil in Hin. by apply elem_of_nil in Hin.
Qed.

(** A body without a currency. *)
Lemma missing_field_rejected_witness :
  ∃ errors,
    post_webhook sample_str_as_float
      (delete "currency" (sample_body 1500 "INR"))
      (calm (sample_time 0 0)) initial_world
    = (UnprocessableEntity errors, initial_world)
    ∧ ("currency", missing) ∈ errors.
Proof.
  apply missing_field_rejected.
  - unfold webhook_fields. do 4 right. left.
  - reflexivity.
Defined.

(** ** The answers of the intake *)

(** Whatever fails, the intake handler answers in one of two ways: 202 with
    the acknowledgment, or 500 with the fixed detail. No other status, no
    unhandled exception, no text of an exception reaches the caller; and
    the collection is as before or has the one document of the request
    more. *)
Theorem intake_answers_two_ways (webhook_data : WebhookRequest.t) (ε : env)
  (w : world) :
  let answer := serve HTTP_202_ACCEPTED (receive_webhook webhook_data) ε w in
  (answer.1 = Response 202 accepted
   ∨ answer.1 = ErrorResponse 500 "Failed to process webhook")
  ∧ (records answer.2 = records w
     ∨ records answer.2
       = records w
         ++ [<["_id" := VObjectId (length (records w))]>
               (transaction_doc webhook_data (utcnow ε))]).
Proof.
  intros answer. subst answer. unfold serve. rewrite run_receive_webhook.
  assert (∀ e w0,
            (webhook_failed (WebhookRequest.transaction_id webhook_data) e
               w0).1 = inr accepted
            ∨ (webhook_failed (WebhookRequest.transaction_id webhook_data) e
                 w0).1
              = inl (HTTPException 500 "Failed to process webhook")) as Hfail.
  { intros e w0. unfold webhook_failed. destruct (contains _ _); auto. }
  split.
  - unfold intake.
    repeat match goal with
           | |- context [match fault ε ?c with _ => _ end] =>
               destruct (fault ε c)
           | |- context [match Collection.insert_one ?d ?c with _ => _ end] =>
               destruct (Collection.insert_one d c)
           end;
      try (by left);
      match goal with
      | |- context [webhook_failed ?t ?e ?w0] =>
          destruct (Hfail e w0) as [Hr|Hr];
          destruct (webhook_failed t e w0) as [r w1];
          cbn [fst] in Hr; subst r; auto
      end.
  - destruct (intake_cases webhook_data ε w)
      as [(Hc & _)|[(Hc & _)|[(Hc & _)|(Hc & _)]]];
      unfold records;
      destruct (intake webhook_data ε w) as [[[]|] w1]; cbn [snd] in *;
      rewrite Hc; auto.
Qed.

(** Without the unique index nothing tells a duplicate: every intake whose
    calls succeed stores one more record with its [transaction_id] and
    starts one more worker for it, whatever the collection holds. *)
Theorem no_index_no_deduplication (webhook_data : WebhookRequest.t)
  (now : datetime) (w : world) :
  let transaction_id := WebhookRequest.transaction_id webhook_data in
  let answer :=
    serve HTTP_202_ACCEPTED (receive_webhook webhook_data) (calm now) w in
  unique_index (transactions w) = false →
  answer.1 = Response 202 accepted
  ∧ stored transaction_id answer.2 = S (stored transaction_id w)
  ∧ dispatched transaction_id answer.2 = S (dispatched transaction_id w)
  ∧ threads answer.2
    = threads w ++ [process_transaction_background transaction_id].
Proof.
  intros transaction_id answer Hu. subst answer. unfold serve.
  rewrite run_receive_webhook.
  pose proof (intake_calm webhook_data (calm now) w (λ _, eq_refl)) as Hr.
  destruct (intake_cases webhook_data (calm now) w)
    as [(_ & _ & _ & Hf)|[(_ & _ & _ & _ & Hu' & _)
        |[(Hc & Ht & Hcalls & Hfresh)|(Hc & Ht & Hcalls & _)]]].
  - by destruct Hf.
  - congruence.
  - exfalso. unfold intake in Hcalls. cbn [fault calm no_fault] in Hcalls.
    unfold Collection.insert_one in Hcalls. rewrite Hu in Hcalls.
    cbn in Hcalls. apply (f_equal length) in Hcalls.
    rewrite !length_app in Hcalls. cbn in Hcalls. lia.
  - destruct (intake webhook_data (calm now) w) as [r w1].
    cbn [fst snd] in *. subst r. cbn [fst snd]. split_and!; [done| | |done].
    + rewrite (stored_appended transaction_id transaction_id w w1).
      * rewrite decide_True by done. lia.
      * unfold records. rewrite Hc. cbn [documents]. apply keys_appended.
    + rewrite (dispatched_started transaction_id transaction_id w w1
                 [UtcNow; InsertOne (transaction_doc webhook_data now)]).
      * rewrite decide_True by done. lia.
      * exact Hcalls.
      * repeat constructor; done.
Qed.

(** The same webhook twice, without the index. *)
Lemma no_index_no_deduplication_witness :
  let webhook_data := sample_request "txn_abc" "user" 1500 in
  let w :=
    after [Webhook webhook_data (calm (sample_time 0 0))] initial_world in
  let answer :=
    serve HTTP_202_ACCEPTED (receive_webhook webhook_data)
      (calm (sample_time 0 1)) w in
  answer.1 = Response 202 accepted
  ∧ stored "txn_abc" answer.2 = 2
  ∧ dispatched "txn_abc" answer.2 = 2.
Proof.
  intros webhook_data w answer.
  destruct (no_index_no_deduplication webhook_data (sample_time 0 1) w
              eq_refl) as (Hr & Hs & Hd & _).
  split_and!; [exact Hr|exact Hs|exact Hd].
Defined.

(** ** From the webhook to the settled record *)

Lemma insert_one_fresh (d : dict) c :
  Collection.key d ∉ Collection.keys (documents c) →
  Collection.insert_one d c
  = inr {| documents :=
             documents c ++ [Collection.with_id (length (documents c)) d];
           unique_index := unique_index c |}.
Proof.
  intros Hfresh. unfold Collection.insert_one.
  rewrite bool_decide_eq_false_2 by done. by rewrite andb_false_r.
Qed.

Lemma intake_fresh webhook_data now w :
  let transaction_id := WebhookRequest.transaction_id webhook_data in
  VStr transaction_id ∉ Collection.keys (records w) →
  (intake webhook_data (calm now) w).1 = inr accepted
  ∧ transactions (intake webhook_data (calm now) w).2
    = {| documents :=
           records w
           ++ [Collection.with_id (length (records w))
                 (transaction_doc webhook_data now)];
         unique_index := unique_index (transactions w) |}
  ∧ threads (intake webhook_data (calm now) w).2
    = threads w ++ [process_transaction_background transaction_id].
Proof.
  intros transaction_id Hfresh. unfold intake.
  cbn [fault calm no_fault utcnow].
  rewrite insert_one_fresh by done. done.
Qed.

Lemma first_of_appended transaction_id (docs : list dict) (d : dict) :
  VStr transaction_id ∉ Collection.keys docs →
  Collection.key d = VStr transaction_id →
  list_find (Collection.matches (by_transaction_id transaction_id))
    (docs ++ [d]) = Some (length docs, d).
Proof.
  intros Hfresh Hkey. apply find_one_first; [|done|].
  - by apply list_lookup_middle.
  - intros j d' Hj Hj' Hkey'. apply Hfresh. rewrite <- Hkey'.
    apply list_elem_of_fmap_2. rewrite lookup_app_l in Hj' by done.
    by eapply list_elem_of_lookup_2.
Qed.

Lemma lookup_first transaction_id ε w i d r :
  fault ε (FindOne (by_transaction_id transaction_id)) = None →
  list_find (Collection.matches (by_transaction_id transaction_id))
    (records w) = Some (i, d) →
  holds r d →
  (get_transaction transaction_id ε w).1 = Response 200 r.
Proof.
  intros Hfault Hfind Hr. unfold get_transaction, serve.
  rewrite run_get_transaction_status. unfold lookup, Collection.find_one.
  rewrite Hfault. fold (records w). rewrite Hfind.
  cbn [fmap option_fmap option_map snd].
  rewrite bool_decide_eq_false_2 by by eapply holds_not_empty.
  by rewrite (init_holds r d Hr).
Qed.

(** A webhook with a new [transaction_id], posted when nothing fails, is
    acknowledged, and a status query then returns the fields of the body as
    they were posted, the status [PROCESSING], the timestamp of the
    intake's reading of the clock, and no [processed_at]. *)
Theorem post_then_get (str_as_float : string → option float) (body : dict)
  (webhook_data : WebhookRequest.t) (now later : datetime) (w : world) :
  let transaction_id := WebhookRequest.transaction_id webhook_data in
  let posted := post_webhook str_as_float body (calm now) w in
  WebhookRequest.validate str_as_float body = inr webhook_data →
  VStr transaction_id ∉ Collection.keys (records w) →
  posted.1 = Response 202 accepted
  ∧ (get_transaction transaction_id (calm later) posted.2).1
    = Response 200 (response_of webhook_data now "PROCESSING" None).
Proof.
  intros transaction_id posted Hvalid Hfresh. subst posted.
  unfold post_webhook. rewrite Hvalid. unfold serve.
  rewrite run_receive_webhook.
  destruct (intake_fresh webhook_data now w Hfresh) as (Hr & Hc & _).
  destruct (intake webhook_data (calm now) w) as [r w1].
  cbn [fst snd] in *. subst r. cbn [fst snd]. split; [done|].
  eapply lookup_first; [done| |apply holds_transaction_doc].
  unfold records. rewrite Hc. cbn [documents].
  by apply first_of_appended.
Qed.

(** The sample body, posted to the empty collection and queried. *)
Lemma post_then_get_witness :
  let posted :=
    post_webhook sample_str_as_float (sample_body 1500 "INR")
      (calm (sample_time 0 0)) initial_world in
  posted.1 = Response 202 accepted
  ∧ (get_transaction "txn_abc" (calm (sample_time 0 5)) posted.2).1
    = Response 200
        {| TransactionResponse.transaction_id := "txn_abc";
           TransactionResponse.source_account := "acc_user";
           TransactionResponse.destination_account := "acc_merchant";
           TransactionResponse.amount := 1500;
           TransactionResponse.currency := "INR";
           TransactionResponse.status := "PROCESSING";
           TransactionResponse.created_at := "2024-05-17T09:00:00.000250Z";
           TransactionResponse.processed_at := None |}.
Proof.
  apply (post_then_get sample_str_as_float (sample_body 1500 "INR")
           {| WebhookRequest.transaction_id := "txn_abc";
              WebhookRequest.source_account := "acc_user";
              WebhookRequest.destination_account := "acc_merchant";
              WebhookRequest.amount := 1500;
              WebhookRequest.currency := "INR" |}
           (sample_time 0 0) (sample_time 0 5) initial_world).
  - reflexivity.
  - apply not_elem_of_nil.
Defined.

Lemma processed_noop now (d : dict) :
  processed now ∪ d = d
  ↔ d !! "status" = Some (VStr "PROCESSED")
    ∧ d !! "processed_at" = Some (VStr (timestamp now)).
Proof.
  split.
  - intros Heq. split.
    + rewrite <- Heq. apply processed_status.
    + rewrite <- Heq. apply processed_processed_at.
  - intros [Hs Hp]. rewrite processed_union.
    rewrite (insert_id d "processed_at") by done. by apply insert_id.
Qed.

Lemma settle_calm_log transaction_id now w :
  log (settle transaction_id (calm now) w)
  = log w
    ++ [match list_find
                (Collection.matches (by_transaction_id transaction_id))
                (records w) with
        | Some (_, d) =>
            if bool_decide (processed now ∪ d = d)
            then (WARNING, "Failed to update transaction: " +:+ transaction_id)
            else (INFO,
                  "Transaction processed successfully: " +:+ transaction_id)
        | None => (WARNING, "Failed to update transaction: " +:+ transaction_id)
        end].
Proof.
  unfold settle, records. cbn [fault calm no_fault utcnow].
  unfold Collection.update_one.
  destruct (list_find _ _) as [[i d]|] eqn:Hfind; [|done].
  case_bool_decide as Hsame; [done|].
  rewrite processed_key.
  rewrite (bool_decide_eq_false_2 (Collection.key d ≠ Collection.key d))
    by (intros H; by apply H).
  by rewrite andb_false_r.
Qed.

(** A webhook with a new [transaction_id] is taken in; its worker is the
    next thread of the pool. When that thread is scheduled twice (it starts
    and sleeps, then wakes up) and nothing fails, the worker returns after
    logging the success, and a status query returns the fields of the
    webhook with the status [PROCESSED], the timestamp of the intake as
    [created_at] and the timestamp of the worker's reading of the clock as
    [processed_at]. *)
Theorem accepted_then_settled (webhook_data : WebhookRequest.t)
  (t0 t1 t2 t3 : datetime) (w : world) :
  let transaction_id := WebhookRequest.transaction_id webhook_data in
  let i := length (threads w) in
  let w1 := (handle (Webhook webhook_data (calm t0)) w).2 in
  let w2 := schedule i (calm t2) (schedule i (calm t1) w1) in
  VStr transaction_id ∉ Collection.keys (records w) →
  threads w1 !! i = Some (process_transaction_background transaction_id)
  ∧ threads w2 !! i = Some (Return tt)
  ∧ last (log w2)
    = Some (INFO, "Transaction processed successfully: " +:+ transaction_id)
  ∧ (get_transaction transaction_id (calm t3) w2).1
    = Response 200
        (response_of webhook_data t0 "PROCESSED" (Some (timestamp t2))).
Proof.
  intros transaction_id i w1 w2 Hfresh.
  assert (w1 = (intake webhook_data (calm t0) w).2) as Hw1
    by apply handle_webhook.
  destruct (intake_fresh webhook_data t0 w Hfresh) as (_ & Hc & Ht).
  rewrite <- Hw1 in Hc, Ht. clearbody w1.
  assert (threads w1 !! i
          = Some (process_transaction_background transaction_id)) as Hi.
  { rewrite Ht. by apply list_lookup_middle. }
  split; [exact Hi|].
  set (d := Collection.with_id (length (records w))
              (transaction_doc webhook_data t0)) in *.
  assert (list_find (Collection.matches (by_transaction_id transaction_id))
            (records w1) = Some (length (records w), d)) as Hfind.
  { unfold records at 1. rewrite Hc. cbn [documents].
    by apply first_of_appended. }
  assert (schedule i (calm t1) w1
          = set_threads (<[i := sleeping_worker transaction_id]> (threads w1))
              (emit INFO
                 ("Starting background processing for transaction: "
                  +:+ transaction_id) w1)) as Hs1.
  { unfold schedule. by rewrite Hi, resume_started. }
  subst w2. rewrite Hs1. clear Hs1.
  set (w1' := set_threads _ _).
  assert (threads w1' !! i = Some (sleeping_worker transaction_id)) as Hi'.
  { subst w1'. cbn [threads set_threads emit].
    apply list_lookup_insert_eq. by eapply lookup_lt_Some. }
  assert (schedule i (calm t2) w1'
          = set_threads (<[i := Return tt]> (threads w1'))
              (settle transaction_id (calm t2) w1')) as Hs2.
  { unfold schedule. rewrite Hi', resume_sleeping. cbn beta iota zeta.
    by rewrite settle_threads. }
  rewrite Hs2. clear Hs2.
  assert (records w1' = records w1) as Hrec by done.
  assert (log w1' = log w1 ++ _) as Hlog by reflexivity.
  pose proof (settle_calm transaction_id t2 w1') as [_ Hrecords].
  pose proof (settle_calm_log transaction_id t2 w1') as Hlogs.
  rewrite Hrec, Hfind in Hrecords, Hlogs.
  assert (processed t2 ∪ d ≠ d) as Hne.
  { intros [Hs _]%processed_noop. discriminate Hs. }
  rewrite bool_decide_eq_false_2 in Hlogs by done.
  split_and!.
  - cbn [threads set_threads]. apply list_lookup_insert_eq.
    by eapply lookup_lt_Some.
  - cbn [log set_threads]. rewrite Hlogs. apply last_snoc.
  - eapply (lookup_first _ _ _ (length (records w)) (processed t2 ∪ d));
      [done| |].
    + unfold records at 1. cbn [transactions set_threads].
      fold (records (settle transaction_id (calm t2) w1')).
      rewrite Hrecords. apply find_one_first.
      * apply list_lookup_insert_eq.
        apply find_lookup in Hfind as [Hl _]. by eapply lookup_lt_Some.
      * by rewrite processed_key.
      * intros j d' Hj Hj'. rewrite list_lookup_insert_ne in Hj' by lia.
        apply list_find_Some in Hfind as (_ & _ & Hbefore).
        rewrite <- matches_by_transaction_id. by eapply Hbefore.
    + apply (holds_processed
               (response_of webhook_data t0 "PROCESSING" None) d t2).
      apply holds_transaction_doc.
Qed.

(** The sample webhook on the empty system, settled and queried. *)
Lemma accepted_then_settled_witness :
  let w1 :=
    (handle (Webhook (sample_request "txn_abc" "user" 1500)
               (calm (sample_time 0 0))) initial_world).2 in
  let w2 :=
    schedule 0 (calm (sample_time 0 30))
      (schedule 0 (calm (sample_time 0 0)) w1) in
  (get_transaction "txn_abc" (calm (sample_time 0 40)) w2).1
  = Response 200
      (response_of (sample_request "txn_abc" "user" 1500) (sample_time 0 0)
         "PROCESSED" (Some "2024-05-17T09:00:30.000250Z")).
Proof.
  intros w1 w2.
  refine (proj2 (proj2 (proj2
            (accepted_then_settled (sample_request "txn_abc" "user" 1500)
               (sample_time 0 0) (sample_time 0 0) (sample_time 0 30)
               (sample_time 0 40) initial_world _)))).
  apply not_elem_of_nil.
Defined.

(** ** The worker's update is unconditional *)

(** A worker that wakes up when nothing fails logs one record. It is the
    warning "Failed to update transaction" exactly when there is no record
    of its [transaction_id], or the first one already has the status
    [PROCESSED] and the very timestamp the worker would write; in both
    cases the collection is as before. Otherwise it is the success, and
    the record has the worker's timestamp: a record that was [PROCESSED]
    already gets its [processed_at] overwritten. *)
Theorem worker_warns_exactly_when (transaction_id : string) (now : datetime)
  (w : world) :
  let w' := (resume (sleeping_worker transaction_id) (calm now) w).2 in
  let warning :=
    (WARNING, "Failed to update transaction: " +:+ transaction_id) in
  let success :=
    (INFO, "Transaction processed successfully: " +:+ transaction_id) in
  match list_find (λ d, get "transaction_id" d = VStr transaction_id)
          (records w) with
  | None => log w' = log w ++ [warning] ∧ records w' = records w
  | Some (i, d) =>
      if bool_decide (d !! "status" = Some (VStr "PROCESSED")
                      ∧ d !! "processed_at" = Some (VStr (timestamp now)))
      then log w' = log w ++ [warning] ∧ records w' = records w
      else log w' = log w ++ [success]
           ∧ ∃ d', records w' !! i = Some d'
                   ∧ d' !! "status" = Some (VStr "PROCESSED")
                   ∧ d' !! "processed_at" = Some (VStr (timestamp now))
  end.
Proof.
  intros w' warning success. subst w' warning success.
  rewrite resume_sleeping. cbn [snd].
  rewrite (list_find_ext (λ d, get "transaction_id" d = VStr transaction_id)
             (Collection.matches (by_transaction_id transaction_id))).
  2:{ intros d. symmetry. apply matches_by_transaction_id. }
  rewrite settle_calm_log, (proj2 (settle_calm _ _ _)).
  destruct (list_find _ _) as [[i d]|] eqn:Hfind; [|done].
  apply find_lookup in Hfind as [Hi _].
  destruct (decide (processed now ∪ d = d)) as [Hsame|Hne].
  - rewrite (bool_decide_eq_true_2 _ Hsame).
    rewrite bool_decide_eq_true_2 by by apply processed_noop.
    rewrite Hsame. split; [done|]. by apply list_insert_id.
  - rewrite (bool_decide_eq_false_2 _ Hne).
    rewrite bool_decide_eq_false_2 by by rewrite <- processed_noop.
    split; [done|]. exists (processed now ∪ d). split_and!.
    + apply list_lookup_insert_eq. by eapply lookup_lt_Some.
    + apply processed_status.
    + apply processed_processed_at.
Qed.

(** ** Failures of the status query *)

(** When the lookup raises an exception that is no [HTTPException], the
    query answers 500 with the fixed detail, whether the record exists or
    not; the text of the exception is logged as an error and the
    collection is not touched. *)
Theorem status_query_store_failure (transaction_id : string) (ε : env)
  (w : world) (e : exn) :
  let answer := get_transaction transaction_id ε w in
  fault ε (FindOne {[ "transaction_id" := VStr transaction_id ]}) = Some e →
  (∀ code detail, e ≠ HTTPException code detail) →
  answer.1 = ErrorResponse 500 "Failed to retrieve transaction status"
  ∧ transactions answer.2 = transactions w
  ∧ calls answer.2 = calls w
  ∧ last (log answer.2)
    = Some (ERROR, "Error getting transaction status: " +:+ str e).
Proof.
  intros answer Hfault Hother. subst answer.
  unfold get_transaction, serve. rewrite run_get_transaction_status.
  unfold lookup, by_transaction_id. rewrite Hfault.
  destruct e as [code detail| | |]; [by destruct (Hother code detail)|..];
    cbn; split_and!; try done; apply last_snoc.
Qed.

(** The server cannot be reached. *)
Lemma status_query_store_failure_witness :
  let e :=
    OtherException "ServerSelectionTimeoutError" "connection refused" in
  let answer :=
    get_transaction "txn_abc" (failing_with is_find e (sample_time 0 0))
      (after sample_run initial_world) in
  answer.1 = ErrorResponse 500 "Failed to retrieve transaction status"
  ∧ last (log answer.2)
    = Some (ERROR, "Error getting transaction status: connection refused").
Proof.
  intros e answer.
  destruct (status_query_store_failure "txn_abc"
              (failing_with is_find e (sample_time 0 0))
              (after sample_run initial_world) e eq_refl)
    as (Hr & _ & _ & Hlog); [done|]. by split.
Defined.

Lemma init_missing (kw : dict) k :
  k ∈ response_fields → kw !! k = None →
  ∃ errmsg, TransactionResponse.init kw = inl (ValidationError errmsg).
Proof.
  intros Hk Hnone. unfold response_fields in Hk.
  unfold TransactionResponse.init.
  repeat (apply elem_of_cons in Hk as [->|Hk]);
    [..|by apply elem_of_nil in Hk];
    rewrite Hnone; repeat case_match; eauto.
Qed.

(** A document of the collection that has the [transaction_id] asked for
    but lacks one of the other fields the response requires is not
    returned: the query answers 500 with the fixed detail, not 404, and
    not the fields that are there. *)
Theorem status_query_incomplete_record (transaction_id : string) (ε : env)
  (w : world) (i : nat) (d : dict) (k : string) :
  let answer := get_transaction transaction_id ε w in
  fault ε (FindOne {[ "transaction_id" := VStr transaction_id ]}) = None →
  list_find (λ d, get "transaction_id" d = VStr transaction_id) (records w)
  = Some (i, d) →
  k ∈ response_fields →
  d !! k = None →
  answer.1 = ErrorResponse 500 "Failed to retrieve transaction status".
Proof.
  intros answer Hfault Hfind Hk Hnone. subst answer.
  rewrite (list_find_ext (λ d, get "transaction_id" d = VStr transaction_id)
             (Collection.matches (by_transaction_id transaction_id)))
    in Hfind.
  2:{ intros d'. symmetry. apply matches_by_transaction_id. }
  unfold get_transaction, serve. rewrite run_get_transaction_status.
  unfold lookup, Collection.find_one.
  change (FindOne (by_transaction_id transaction_id))
    with (FindOne {[ "transaction_id" := VStr transaction_id ]}).
  rewrite Hfault. fold (records w). rewrite Hfind.
  cbn [fmap option_fmap option_map snd].
  assert (d ≠ ∅) as Hne.
  { apply find_lookup in Hfind as [_ Hm].
    apply matches_by_transaction_id in Hm. intros ->. discriminate Hm. }
  rewrite bool_decide_eq_false_2 by done.
  destruct (init_missing (delete "_id" d) k Hk) as [errmsg ->]; [|done].
  rewrite lookup_delete_ne; [done|].
  intros <-. unfold response_fields in Hk.
  repeat (apply elem_of_cons in Hk as [Hk|Hk]; [discriminate Hk|]).
  by apply elem_of_nil in Hk.
Qed.

(** A document another writer left, without [created_at]. *)
Lemma status_query_incomplete_record_witness :
  let w :=
    set_transactions
      {| documents := [foreign_document]; unique_index := true |}
      initial_world in
  (get_transaction "txn_old" (calm (sample_time 0 0)) w).1
  = ErrorResponse 500 "Failed to retrieve transaction status".
Proof.
  intros w.
  apply (status_query_incomplete_record "txn_old" (calm (sample_time 0 0)) w
           0 foreign_document "created_at").
  - reflexivity.
  - vm_compute. reflexivity.
  - unfold response_fields. set_solver.
  - vm_compute. reflexivity.
Defined.

(** ** A second record of a [transaction_id] *)

(** When two documents of the collection have the same [transaction_id],
    as after two intakes without the unique index, the second one is never
    changed again, whatever happens: every worker of that
    [transaction_id] updates the first one. A second record that is
    [PROCESSING] stays so for ever. *)
Theorem second_record_never_settles (tr : list event) (w : world)
  (i j : nat) (d d' : dict) :
  workers_only w →
  records w !! i = Some d →
  records w !! j = Some d' →
  i < j →
  Collection.key d = Collection.key d' →
  records (after tr w) !! j = Some d'.
Proof.
  intros Hw Hi Hj Hlt Hkey.
  pose (P := λ c : collection,
          (∃ d0, documents c !! i = Some d0
                 ∧ Collection.key d0 = Collection.key d')
          ∧ documents c !! j = Some d').
  cut (P (transactions (after tr w))); [by intros [_ ?]|].
  apply (after_invariant P); [|done|by split; [exists d|]].
  clear dependent w d.
  intros now c c' Hstep [(d0 & Hi & Hkey) Hj]. unfold P.
  destruct Hstep as [| |webhook_data Hfresh|transaction_id k dk Hfind];
    cbn [documents]; [by split; [exists d0|]..| |].
  - split; [exists d0; split; [|done]|]; by apply lookup_app_l_Some.
  - apply list_find_Some in Hfind as (Hk & Hm & Hfirst).
    apply matches_by_transaction_id in Hm.
    assert (k ≠ j) as Hne.
    { intros ->. rewrite Hj in Hk. injection Hk as <-.
      apply (Hfirst i d0 Hi Hlt). apply matches_by_transaction_id.
      by rewrite Hkey. }
    split; [|by rewrite list_lookup_insert_ne].
    destruct (decide (k = i)) as [->|Hki].
    + exists (processed now ∪ dk). split.
      * apply list_lookup_insert_eq. by eapply lookup_lt_Some.
      * rewrite processed_key. congruence.
    + exists d0. by rewrite list_lookup_insert_ne.
Qed.

(** Without the index the same webhook was stored twice; both workers run,
    and the second record is as it was. *)
Lemma second_record_never_settles_witness :
  let w := after unindexed_intakes initial_world in
  let d' := default ∅ (records w !! 1) in
  records (after both_workers w) !! 1 = Some d'
  ∧ d' !! "status" = Some (VStr "PROCESSING").
Proof.
  intros w d'. split; [|reflexivity].
  apply (second_record_never_settles both_workers w 0 1
           (default ∅ (records w !! 0)) d').
  - apply after_workers_only, workers_only_initial.
  - reflexivity.
  - reflexivity.
  - lia.
  - reflexivity.
Defined.

(** ** Records that block the index *)

(** Once two records share a [transaction_id] and the unique index is not
    there, it never will be: every later startup fails to create it (and
    serves all the same), so the intake goes on without deduplication,
    whatever else happens. *)
Theorem duplicates_block_the_index (tr : list event) (w : world) :
  workers_only w →
  unique_index (transactions w) = false →
  ¬ NoDup (Collection.keys (records w)) →
  unique_index (transactions (after tr w)) = false
  ∧ ¬ NoDup (Collection.keys (records (after tr w))).
Proof.
  intros Hw Hu Hdup.
  pose (P := λ c : collection,
          unique_index c = false ∧ ¬ NoDup (Collection.keys (documents c))).
  cut (P (transactions (after tr w))); [done|].
  apply (after_invariant P); [|done|done].
  clear. intros now c c' Hstep [Hu Hdup]. unfold P. split.
  - destruct (store_step_unique_index _ _ _ Hstep) as [->|(_ & _ & Hnd)];
      [done|by destruct Hdup].
  - destruct (store_step_keys _ _ _ Hstep) as [->|(webhook_data & -> & _)];
      [done|].
    intros Hnd. by apply NoDup_app in Hnd as (Hnd & _ & _).
Qed.

(** The same webhook was stored twice; then the startup hook runs, and the
    webhook comes a third time: there is no index, and a third record. *)
Lemma duplicates_block_the_index_witness :
  let w := after unindexed_intakes initial_world in
  let tr :=
    [Startup (calm (sample_time 1 0));
     Webhook (sample_request "txn_abc" "user" 1500)
       (calm (sample_time 1 1))] in
  unique_index (transactions (after tr w)) = false
  ∧ stored "txn_abc" (after tr w) = 3.
Proof.
  intros w tr. split; [|reflexivity].
  apply (duplicates_block_the_index tr w).
  - apply after_workers_only, workers_only_initial.
  - reflexivity.
  - assert (Collection.keys (records w) = [VStr "txn_abc"; VStr "txn_abc"])
      as -> by reflexivity.
    intros Hnd. apply NoDup_cons in Hnd as [Hnotin _].
    apply Hnotin. by left.
Defined.

(** ** The health probe *)

(** The health probe consults nothing but the clock: in every state and
    every environment, one in which each call of the database fails
    included, it answers 200 with the status [HEALTHY] and the timestamp
    of its reading of the clock, and leaves the collection, the pool of
    threads and the log as they are. *)
Lemma health_probe_ignores_database (ε : env) (w : world) :
  (get_health ε w).1
  = Response 200
      {| HealthResponse.status := "HEALTHY";
         HealthResponse.current_time := timestamp (utcnow ε) |}
  ∧ transactions (get_health ε w).2 = transactions w
  ∧ threads (get_health ε w).2 = threads w
  ∧ log (get_health ε w).2 = log w
  ∧ calls (get_health ε w).2 = calls w ++ [UtcNow].
Proof. done. Qed.

(** ** A thread that could not be started *)

Lemma started_log transaction_id :
  log (resume (process_transaction_background transaction_id)
         (calm (sample_time 0 0)) initial_world).2
  = [(INFO,
      "Starting background processing for transaction: "
      +:+ transaction_id)].
Proof. by rewrite resume_started. Qed.

Lemma sleeping_log transaction_id :
  log (resume (sleeping_worker transaction_id)
         (calm (sample_time 0 0)) initial_world).2
  = [(WARNING, "Failed to update transaction: " +:+ transaction_id)].
Proof. rewrite resume_sleeping. cbn [snd]. by rewrite settle_calm_log. Qed.

Lemma pending_inj transaction_id tid p :
  pending transaction_id p → pending tid p → transaction_id = tid.
Proof.
  intros [->| ->] [H|H].
  - pose proof (started_log transaction_id) as H1. rewrite H in H1.
    rewrite started_log in H1. injection H1 as H1.
    by apply append_inj in H1 as [_ ->].
  - pose proof (started_log transaction_id) as H1. rewrite H in H1.
    rewrite sleeping_log in H1. discriminate H1.
  - pose proof (sleeping_log transaction_id) as H1. rewrite H in H1.
    rewrite started_log in H1. discriminate H1.
  - pose proof (sleeping_log transaction_id) as H1. rewrite H in H1.
    rewrite sleeping_log in H1. injection H1 as H1.
    by apply append_inj in H1 as [_ ->].
Qed.

Lemma returned_not_pending transaction_id : ¬ pending transaction_id (Return tt).
Proof.
  intros [H|H].
  - pose proof (started_log transaction_id) as H1. rewrite <- H in H1.
    discriminate H1.
  - pose proof (sleeping_log transaction_id) as H1. rewrite <- H in H1.
    discriminate H1.
Qed.

Lemma elem_of_insert_inv {A} (l : list A) i x y :
  y ∈ <[i := x]> l → y = x ∨ y ∈ l.
Proof.
  intros [j Hj]%list_elem_of_lookup_1.
  apply list_lookup_insert_Some in Hj as [(-> & -> & _)|[_ Hj]]; [by left|].
  right. by eapply list_elem_of_lookup_2.
Qed.

Lemma create_indexes_records ε w :
  records (create_indexes ε w) = records w.
Proof.
  unfold create_indexes, records.
  destruct (fault ε _); [done|].
  destruct (Collection.create_index _ _ _) as [e|col] eqn:Hidx; [done|].
  by apply create_index_inr in Hidx as [-> _].
Qed.

(** What one event does to the records: nothing; one is appended; or a
    worker that sleeps in the pool wakes up and updates the first record
    of its [transaction_id]. *)
Lemma handle_records ev w :
  workers_only w →
  records (handle ev w).2 = records w
  ∨ (∃ d, records (handle ev w).2 = records w ++ [d])
  ∨ ∃ transaction_id j d,
      sleeping_worker transaction_id ∈ threads w
      ∧ records w !! j = Some d
      ∧ Collection.key d = VStr transaction_id
      ∧ records (handle ev w).2
        = <[j := processed (utcnow (env_of ev)) ∪ d]> (records w).
Proof.
  intros Hw. destruct ev as [ε|webhook_data ε|transaction_id ε|i ε].
  - left. cbn [handle]. unfold startup. rewrite run_startup_event.
    apply create_indexes_records.
  - rewrite (proj1 (handle_webhook _ _ _)). unfold records.
    destruct (intake_cases webhook_data ε w)
      as [(-> & _)|[(-> & _)|[(-> & _)|(-> & _)]]]; eauto.
  - left. cbn [handle]. unfold get_transaction, serve.
    rewrite run_get_transaction_status.
    pose proof (lookup_frame transaction_id ε w) as [Hc _].
    unfold records.
    destruct (lookup transaction_id ε w) as [[e|a] w'];
      [destruct e|]; cbn in *; by rewrite Hc.
  - cbn [handle snd env_of]. unfold records.
    destruct (schedule_transactions i ε w Hw)
      as [->|(transaction_id & j & d & Hi & Hfind & ->)]; [by left|].
    right. right. exists transaction_id, j, d.
    apply find_lookup in Hfind as [Hj Hm].
    apply matches_by_transaction_id in Hm.
    split_and!; try done. by eapply list_elem_of_lookup_2.
Qed.

(** A worker of [transaction_id] comes into the pool only with a new
    record of that [transaction_id]. *)
Lemma handle_no_worker_pending ev w transaction_id :
  workers_only w →
  no_worker_pending transaction_id w →
  (unique_index (transactions w) = true
   ∧ VStr transaction_id ∈ Collection.keys (records w))
  ∨ VStr transaction_id ∉ Collection.keys (records (handle ev w).2) →
  no_worker_pending transaction_id (handle ev w).2.
Proof.
  intros Hw Hnone Hcase. destruct ev as [ε|webhook_data ε|tid ε|i ε].
  - cbn [handle]. unfold startup. rewrite run_startup_event. cbn [snd].
    unfold no_worker_pending. by rewrite create_indexes_threads.
  - rewrite (proj1 (handle_webhook _ _ _)) in *.
    unfold no_worker_pending.
    destruct (intake_cases webhook_data ε w)
      as [(_ & Hts & _)|[(_ & Hts & _)|[(_ & Hts & _)
          |(Hc & Hts & _ & Hfresh)]]]; rewrite Hts; [done..|].
    intros p [Hp|Hp%list_elem_of_singleton]%elem_of_app; [by apply Hnone|].
    subst p. intros Hpend.
    assert (transaction_id = WebhookRequest.transaction_id webhook_data)
      as -> by (eapply pending_inj; [done|by left]).
    destruct Hcase as [[Hu Hin]|Hnotin]; [by apply Hfresh|].
    apply Hnotin. unfold records. rewrite Hc. cbn [documents].
    rewrite keys_appended, elem_of_app, list_elem_of_singleton. by right.
  - cbn [handle]. unfold get_transaction, serve.
    rewrite run_get_transaction_status.
    pose proof (lookup_frame tid ε w) as [_ Hts].
    unfold no_worker_pending.
    destruct (lookup tid ε w) as [[e|a] w'];
      [destruct e|]; cbn in *; by rewrite Hts.
  - cbn [handle snd].
    destruct (threads w !! i) as [p|] eqn:Hi.
    2:{ unfold schedule. by rewrite Hi. }
    assert (∃ transaction_id, worker_of transaction_id p) as Hp.
    { unfold workers_only in Hw. rewrite Forall_lookup in Hw. by eapply Hw. }
    destruct (schedule_worker i ε w p Hi Hp)
      as [[-> _]|(tid & [[-> ->]|[-> ->]])]; [done| |].
    + intros q Hq. cbn [threads set_threads emit] in Hq.
      apply elem_of_insert_inv in Hq as [->|Hq]; [|by apply Hnone].
      intros Hpend.
      assert (transaction_id = tid) as ->
        by (eapply pending_inj; [done|by right]).
      apply (Hnone (process_transaction_background tid)); [|by left].
      by eapply list_elem_of_lookup_2.
    + intros q Hq. cbn [threads set_threads] in Hq.
      apply elem_of_insert_inv in Hq as [->|Hq].
      * apply returned_not_pending.
      * by apply Hnone.
Qed.

Lemma stranded_step transaction_id n d ev w :
  stranded transaction_id n d w → stranded transaction_id n d (handle ev w).2.
Proof.
  intros (Hw & Hu & Hnd & Hn & Hkey & Hnone).
  destruct (handle_step ev w Hw) as [Hstep Hw'].
  assert (unique_index (transactions (handle ev w).2) = true) as Hu'.
  { by destruct (store_step_unique_index _ _ _ Hstep) as [->|[-> _]]. }
  assert (VStr transaction_id ∈ Collection.keys (records w)) as Hin.
  { rewrite <- Hkey. apply list_elem_of_fmap_2.
    by eapply list_elem_of_lookup_2. }
  split_and!; [done|done| | |done|].
  - by apply (store_step_index_sound _ _ _ Hstep); [intros _|].
  - destruct (handle_records ev w Hw)
      as [->|[[d' ->]|(tid & j & dj & Htid & Hj & Hkj & ->)]]; [done| |].
    + by apply lookup_app_l_Some.
    + rewrite list_lookup_insert_ne; [done|]. intros ->.
      assert (tid = transaction_id) as -> by congruence.
      apply (Hnone (sleeping_worker transaction_id)); [done|by right].
  - apply handle_no_worker_pending; auto.
Qed.

Lemma stranded_after transaction_id n d tr : ∀ w,
  stranded transaction_id n d w → stranded transaction_id n d (after tr w).
Proof.
  induction tr as [|ev tr IH]; intros w Hw; [done|].
  rewrite after_cons. by apply IH, stranded_step.
Qed.

(** In the states the system reaches, the workers of the pool that have
    their update still to make have a record. *)
Lemma after_no_worker_pending transaction_id tr : ∀ w,
  workers_only w →
  no_worker_pending transaction_id w →
  VStr transaction_id ∉ Collection.keys (records (after tr w)) →
  no_worker_pending transaction_id (after tr w).
Proof.
  induction tr as [|ev tr IH]; intros w Hw Hnone Hnotin; [done|].
  rewrite after_cons in *. destruct (handle_step ev w Hw) as [_ Hw'].
  apply IH; [done| |done].
  apply handle_no_worker_pending; [done|done|]. right.
  intros Hin. apply Hnotin. apply stored_positive.
  apply stored_positive in Hin.
  pose proof (proj1 (after_counts tr (handle ev w).2 transaction_id Hw')).
  lia.
Qed.

(** A webhook with a new [transaction_id] comes in under the unique index;
    its record is inserted, but the thread of its worker cannot be started,
    [thread.start()] raises. The request is answered 500 (202 when the
    text of the exception contains "duplicate key") and the record stays
    in the collection. Whatever happens afterwards, the same webhook sent
    again included, no worker is ever started for it, and the record stays
    as it was inserted, [PROCESSING]. *)
Theorem unstarted_worker_strands_record (tr0 tr : list event)
  (webhook_data : WebhookRequest.t) (ε : env) (e : exn) :
  let transaction_id := WebhookRequest.transaction_id webhook_data in
  let w := after tr0 initial_world in
  let doc :=
    Collection.with_id (length (records w))
      (transaction_doc webhook_data (utcnow ε)) in
  let posted := handle (Webhook webhook_data ε) w in
  unique_index (transactions w) = true →
  VStr transaction_id ∉ Collection.keys (records w) →
  fault ε (InsertOne (transaction_doc webhook_data (utcnow ε))) = None →
  fault ε (ThreadStart transaction_id) = Some e →
  posted.1 = WebhookReply (unstarted_reply e)
  ∧ doc !! "status" = Some (VStr "PROCESSING")
  ∧ records (after tr posted.2) !! length (records w) = Some doc
  ∧ dispatched transaction_id (after tr posted.2) = 0.
Proof.
  intros transaction_id w doc posted Hu Hfresh Hinsert Hstart.
  assert (workers_only w) as Hw
    by apply after_workers_only, workers_only_initial.
  assert (intake webhook_data ε w
          = webhook_failed transaction_id e
              (emit INFO ("New transaction created: " +:+ transaction_id)
                 (set_transactions
                    {| documents := records w ++ [doc];
                       unique_index := unique_index (transactions w) |}
                    (carried_out
                       (InsertOne (transaction_doc webhook_data (utcnow ε)))
                       (carried_out UtcNow
                          (emit INFO
                             ("Received webhook for transaction: "
                              +:+ transaction_id) w)))))) as Hintake.
  { unfold intake. rewrite Hinsert, insert_one_fresh by done.
    fold transaction_id. by rewrite Hstart. }
  assert (posted.1 = WebhookReply (unstarted_reply e)) as Hreply.
  { subst posted. cbn [handle]. unfold serve.
    rewrite run_receive_webhook, Hintake.
    unfold webhook_failed, unstarted_reply.
    by destruct (contains _ _). }
  assert (posted.2 = (intake webhook_data ε w).2) as Hposted
    by apply handle_webhook.
  destruct (webhook_failed_frame transaction_id e
              (emit INFO ("New transaction created: " +:+ transaction_id)
                 (set_transactions
                    {| documents := records w ++ [doc];
                       unique_index := unique_index (transactions w) |}
                    (carried_out
                       (InsertOne (transaction_doc webhook_data (utcnow ε)))
                       (carried_out UtcNow
                          (emit INFO
                             ("Received webhook for transaction: "
                              +:+ transaction_id) w))))))
    as (Hc & Hts & Hcs).
  rewrite <- Hintake, <- Hposted in Hc, Hts, Hcs.
  cbn [transactions threads calls emit set_transactions carried_out]
    in Hc, Hts, Hcs.
  assert (workers_only posted.2) as Hw'.
  { unfold workers_only. by rewrite Hts. }
  assert (stranded transaction_id (length (records w)) doc posted.2)
    as Hstranded.
  { split_and!.
    - done.
    - by rewrite Hc.
    - unfold records. rewrite Hc. cbn [documents]. subst doc.
      rewrite keys_appended. apply NoDup_app. split_and!.
      + apply (after_index_sound tr0 initial_world);
          [apply workers_only_initial|by intros [=]|done].
      + intros k Hk ->%list_elem_of_singleton. done.
      + apply NoDup_singleton.
    - unfold records. rewrite Hc. cbn [documents].
      by apply list_lookup_middle.
    - apply with_id_key.
    - unfold no_worker_pending. rewrite Hts.
      apply (after_no_worker_pending transaction_id tr0 initial_world);
        [apply workers_only_initial| |done].
      intros p Hp. by apply elem_of_nil in Hp. }
  pose proof (stranded_after transaction_id _ doc tr _ Hstranded)
    as (_ & Hu' & Hnd' & Hn' & _).
  split_and!; [done|reflexivity|done|].
  assert (stored transaction_id w = 0) as Hs0.
  { destruct (decide (0 < stored transaction_id w)) as [Hpos|Hzero]; [|lia].
    by apply stored_positive in Hpos. }
  assert (dispatched transaction_id w = 0) as Hd0.
  { pose proof (proj2 (after_counts tr0 initial_world transaction_id
                         workers_only_initial)) as H0.
    fold w in H0.
    assert (dispatched transaction_id initial_world = 0) as Hdi by done.
    assert (stored transaction_id initial_world = 0) as Hsi by done.
    lia. }
  assert (dispatched transaction_id posted.2 = 0) as Hd1.
  { rewrite <- Hd0. rewrite <- app_assoc in Hcs.
    eapply dispatched_calls; [exact Hcs|]. repeat constructor; done. }
  assert (stored transaction_id posted.2 = 1) as Hs1.
  { rewrite (stored_appended transaction_id transaction_id w).
    - rewrite decide_True by done. lia.
    - unfold records. rewrite Hc. cbn [documents]. subst doc.
      apply keys_appended. }
  assert (stored transaction_id (after tr posted.2) ≤ 1)%nat as Hs2.
  { by apply NoDup_filter_eq. }
  pose proof (proj2 (after_counts tr posted.2 transaction_id Hw')). lia.
Qed.

(** The pool is exhausted when the webhook comes; the client sends it
    again, the worker of another transaction runs. *)
Lemma unstarted_worker_strands_record_witness :
  let e := OtherException "RuntimeError" "can't start new thread" in
  let w := after [Startup (calm (sample_time 0 0))] initial_world in
  let posted :=
    handle
      (Webhook (sample_request "txn_abc" "user" 1500)
         (failing_with is_thread_start e (sample_time 0 1))) w in
  let tr :=
    [Webhook (sample_request "txn_abc" "user" 1500) (calm (sample_time 0 5));
     Webhook (sample_request "txn_xyz" "user" 20) (calm (sample_time 0 6));
     Schedule 0 (calm (sample_time 0 6));
     Schedule 0 (calm (sample_time 0 36))] in
  posted.1 = WebhookReply (ErrorResponse 500 "Failed to process webhook")
  ∧ (∃ d, records (after tr posted.2) !! 0 = Some d
          ∧ d !! "status" = Some (VStr "PROCESSING"))
  ∧ dispatched "txn_abc" (after tr posted.2) = 0.
Proof.
  intros e w posted tr.
  destruct (unstarted_worker_strands_record
              [Startup (calm (sample_time 0 0))] tr
              (sample_request "txn_abc" "user" 1500)
              (failing_with is_thread_start e (sample_time 0 1)) e)
    as (Hreply & Hstatus & Hrecord & Hnone).
  - reflexivity.
  - apply not_elem_of_nil.
  - reflexivity.
  - reflexivity.
  - split_and!; [exact Hreply| |exact Hnone].
    eexists. split; [exact Hrecord|exact Hstatus].
Defined.

(** ** A worker that fails is not tried again *)

(** What one event does to the records and the pool together. *)
Lemma handle_cases ev w :
  workers_only w →
  let w' := (handle ev w).2 in
  (records w' = records w ∧ threads w' = threads w)
  ∨ (∃ webhook_data now,
       let transaction_id := WebhookRequest.transaction_id webhook_data in
       records w'
       = records w
         ++ [Collection.with_id (length (records w))
               (transaction_doc webhook_data now)]
       ∧ (unique_index (transactions w) = true →
          VStr transaction_id ∉ Collection.keys (records w))
       ∧ (threads w' = threads w
          ∨ threads w'
            = threads w ++ [process_transaction_background transaction_id]))
  ∨ (∃ k transaction_id,
       threads w !! k = Some (process_transaction_background transaction_id)
       ∧ threads w' = <[k := sleeping_worker transaction_id]> (threads w)
       ∧ records w' = records w)
  ∨ (∃ k transaction_id,
       threads w !! k = Some (sleeping_worker transaction_id)
       ∧ threads w' = <[k := Return tt]> (threads w)
       ∧ (records w' = records w
          ∨ ∃ j d now,
              records w !! j = Some d
              ∧ Collection.key d = VStr transaction_id
              ∧ records w' = <[j := processed now ∪ d]> (records w))).
Proof.
  intros Hw w'. subst w'.
  destruct ev as [ε|webhook_data ε|transaction_id ε|i ε].
  - left. cbn [handle]. unfold startup. rewrite run_startup_event.
    cbn [snd]. by rewrite create_indexes_records, create_indexes_threads.
  - rewrite (proj1 (handle_webhook _ _ _)). unfold records.
    destruct (intake_cases webhook_data ε w)
      as [(-> & -> & _)|[(-> & -> & _)|[(-> & -> & _ & Hfresh)
          |(-> & -> & _ & Hfresh)]]]; [by left|by left| |];
      right; left; exists webhook_data, (utcnow ε); cbn [documents]; auto.
  - left. cbn [handle]. unfold get_transaction, serve.
    rewrite run_get_transaction_status.
    pose proof (lookup_frame transaction_id ε w) as [Hc Hts].
    unfold records.
    destruct (lookup transaction_id ε w) as [[e|a] w'];
      [destruct e|]; cbn in *; by rewrite Hc, Hts.
  - cbn [handle snd].
    destruct (threads w !! i) as [p|] eqn:Hi.
    2:{ left. unfold schedule. by rewrite Hi. }
    assert (∃ transaction_id, worker_of transaction_id p) as Hp.
    { unfold workers_only in Hw. rewrite Forall_lookup in Hw. by eapply Hw. }
    destruct (schedule_worker i ε w p Hi Hp)
      as [[-> _]|(tid & [[-> ->]|[-> ->]])]; [by left| |].
    + right. right. left. by exists i, tid.
    + right. right. right. exists i, tid. split_and!; [done|done|].
      unfold records. cbn [transactions set_threads].
      destruct (settle_transactions tid ε w)
        as [->|(j & d & Hfind & ->)]; [by left|].
      right. exists j, d, (utcnow ε).
      apply find_lookup in Hfind as [Hj Hm].
      by apply matches_by_transaction_id in Hm.
Qed.

Lemma awaited_transaction_doc n webhook_data now :
  awaited (WebhookRequest.transaction_id webhook_data)
    (Collection.with_id n (transaction_doc webhook_data now)).
Proof. by split_and!. Qed.

Lemma one_worker_each_step ev w :
  one_worker_each w → one_worker_each (handle ev w).2.
Proof.
  intros (Hw & Hu & Hnd & Hrec & Hone).
  destruct (handle_step ev w Hw) as [Hstep Hw'].
  assert (unique_index (transactions (handle ev w).2) = true) as Hu'.
  { by destruct (store_step_unique_index _ _ _ Hstep) as [->|[-> _]]. }
  assert (NoDup (Collection.keys (records (handle ev w).2))) as Hnd'.
  { by apply (store_step_index_sound _ _ _ Hstep); [intros _|]. }
  split_and!; [done..| |].
  - intros tid p Hp Hpend.
    destruct (handle_cases ev w Hw)
      as [[-> Hts]|[(webhook_data & now & -> & Hfresh & Hts)
          |[(k & tid' & Hk & Hts & ->)|(k & tid' & Hk & Hts & Hrs)]]].
    + rewrite Hts in Hp. eauto.
    + assert (p ∈ threads w
              ∨ p = process_transaction_background
                      (WebhookRequest.transaction_id webhook_data))
        as [Hold| ->].
      { destruct Hts as [Hts|Hts]; rewrite Hts in Hp; [by left|].
        apply elem_of_app in Hp as [?|Hp%list_elem_of_singleton]; auto. }
      * destruct (Hrec tid p Hold Hpend) as (d & Hd & Hawaited).
        exists d. split; [|done]. apply elem_of_app. by left.
      * assert (tid = WebhookRequest.transaction_id webhook_data) as ->
          by (eapply pending_inj; [done|by left]).
        eexists. split; [|apply awaited_transaction_doc].
        apply elem_of_app. right. by apply list_elem_of_singleton.
    + rewrite Hts in Hp. apply elem_of_insert_inv in Hp as [->|Hp]; [|eauto].
      assert (tid = tid') as -> by (eapply pending_inj; [done|by right]).
      apply (Hrec tid' (process_transaction_background tid'));
        [by eapply list_elem_of_lookup_2|by left].
    + rewrite Hts in Hp. apply list_elem_of_lookup_1 in Hp as [m Hm].
      apply list_lookup_insert_Some in Hm as [(_ & <- & _)|[Hmk Hm]];
        [by destruct (returned_not_pending tid)|].
      assert (tid ≠ tid') as Hne.
      { intros ->. apply Hmk. symmetry.
        by apply (Hone tid' m k p (sleeping_worker tid')); [..|right]. }
      destruct (Hrec tid p) as (d & Hd & Hawaited);
        [by eapply list_elem_of_lookup_2|done|].
      exists d. split; [|done].
      destruct Hrs as [->|(j & dj & now & Hj & Hkj & ->)]; [done|].
      apply list_elem_of_lookup_1 in Hd as [n Hn].
      apply (list_elem_of_lookup_2 _ n).
      rewrite list_lookup_insert_ne; [done|]. intros ->.
      destruct Hawaited as [Hkey _]. congruence.
  - intros tid i j p q Hi Hj Hp Hq.
    destruct (handle_cases ev w Hw)
      as [[_ Hts]|[(webhook_data & now & _ & Hfresh & Hts)
          |[(k & tid' & Hk & Hts & _)|(k & tid' & Hk & Hts & _)]]].
    + rewrite Hts in Hi, Hj. eauto.
    + destruct Hts as [Hts|Hts]; rewrite Hts in Hi, Hj; [eauto|].
      assert (∀ m r, (threads w
                      ++ [process_transaction_background
                            (WebhookRequest.transaction_id webhook_data)])
                     !! m = Some r →
                pending tid r →
                threads w !! m = Some r
                ∨ (m = length (threads w)
                   ∧ tid = WebhookRequest.transaction_id webhook_data))
        as Hsplit.
      { intros m r Hm Hr.
        apply lookup_app_Some in Hm as [Hm|[Hge Hm]]; [by left|].
        apply list_lookup_singleton_Some in Hm as [Hm <-].
        right. split; [lia|]. eapply pending_inj; [done|by left]. }
      assert (∀ r, r ∈ threads w → pending tid r →
                tid ≠ WebhookRequest.transaction_id webhook_data) as Hold.
      { intros r Hr Hpend ->.
        destruct (Hrec _ r Hr Hpend) as (d & Hd & Hkey & _).
        apply (Hfresh Hu). rewrite <- Hkey. by apply list_elem_of_fmap_2. }
      destruct (Hsplit i p Hi Hp) as [Hi'|[-> Heq]],
               (Hsplit j q Hj Hq) as [Hj'|[-> Heq']]; [eauto| | |done].
      * exfalso.
        by apply (Hold p); [eapply list_elem_of_lookup_2|..].
      * exfalso.
        by apply (Hold q); [eapply list_elem_of_lookup_2|..].
    + rewrite Hts in Hi, Hj.
      assert (∀ m r, <[k := sleeping_worker tid']> (threads w) !! m = Some r →
                pending tid r →
                ∃ r', threads w !! m = Some r' ∧ pending tid r') as Hback.
      { intros m r Hm Hr.
        apply list_lookup_insert_Some in Hm as [(-> & <- & _)|[_ Hm]];
          [|eauto].
        assert (tid = tid') as -> by (eapply pending_inj; [done|by right]).
        eexists. split; [done|by left]. }
      destruct (Hback i p Hi Hp) as (p' & Hi' & Hp'),
               (Hback j q Hj Hq) as (q' & Hj' & Hq'). eauto.
    + rewrite Hts in Hi, Hj.
      apply list_lookup_insert_Some in Hi as [(_ & <- & _)|[_ Hi]];
        [by destruct (returned_not_pending tid)|].
      apply list_lookup_insert_Some in Hj as [(_ & <- & _)|[_ Hj]];
        [by destruct (returned_not_pending tid)|].
      eauto.
Qed.

Lemma one_worker_each_after tr : ∀ w,
  one_worker_each w → one_worker_each (after tr w).
Proof.
  induction tr as [|ev tr IH]; intros w Hw; [done|].
  rewrite after_cons. by apply IH, one_worker_each_step.
Qed.

Lemma settle_prevented transaction_id ε w e :
  raised ε (calls_to_update transaction_id (utcnow ε)) = Some e →
  transactions (settle transaction_id ε w) = transactions w.
Proof.
  unfold settle, worker_failed, calls_to_update, worker_calls.
  cbn [take raised].
  destruct (fault ε (TimeSleep 30)); [done|].
  destruct (fault ε (Connect _)); [done|].
  destruct (fault ε (UpdateOne _ _)); done.
Qed.

Lemma one_worker_each_indexed ε0 tr :
  let w0 := after [Startup ε0] initial_world in
  unique_index (transactions w0) = true →
  one_worker_each (after tr w0).
Proof.
  intros w0 Hu.
  assert (records w0 = [] ∧ threads w0 = []) as [Hr0 Ht0].
  { subst w0. rewrite after_cons. unfold after. cbn [run_trace snd handle].
    unfold startup. rewrite run_startup_event. cbn [snd].
    by rewrite create_indexes_records, create_indexes_threads. }
  apply one_worker_each_after. split_and!.
  - apply after_workers_only, workers_only_initial.
  - done.
  - rewrite Hr0. apply NoDup_nil_2.
  - intros tid p Hp. rewrite Ht0 in Hp. by apply elem_of_nil in Hp.
  - intros tid k j p q Hk. by rewrite Ht0 in Hk.
Qed.

(** The unique index is there from the start. A worker wakes up, and one
    of its calls up to the update raises. Then the record of its
    [transaction_id] is in the collection, [PROCESSING], and it stays as
    it is whatever happens afterwards: the update is not tried again, by
    no thread and after no request. *)
Theorem failed_worker_is_not_retried (ε0 : env) (tr : list event) (i : nat)
  (transaction_id : string) (ε : env) (e : exn) :
  let w0 := after [Startup ε0] initial_world in
  let w := after tr w0 in
  let w' := schedule i ε w in
  unique_index (transactions w0) = true →
  threads w !! i = Some (sleeping_worker transaction_id) →
  raised ε (calls_to_update transaction_id (utcnow ε)) = Some e →
  ∃ j d,
    records w !! j = Some d
    ∧ Collection.key d = VStr transaction_id
    ∧ d !! "status" = Some (VStr "PROCESSING")
    ∧ ∀ tr', records (after tr' w') !! j = Some d.
Proof.
  intros w0 w w' Hu Hi Hraised.
  pose proof (one_worker_each_indexed ε0 tr Hu)
    as (Hw & Huw & Hnd & Hrec & Hone).
  fold w0 in Hw, Huw, Hnd, Hrec, Hone. fold w in Hw, Huw, Hnd, Hrec, Hone.
  destruct (Hrec transaction_id (sleeping_worker transaction_id))
    as (d & Hd & Hkey & Hstatus & _);
    [by eapply list_elem_of_lookup_2|by right|].
  apply list_elem_of_lookup_1 in Hd as [j Hj].
  exists j, d. split_and!; [done..|]. intros tr'.
  assert (w' = set_threads (<[i := Return tt]> (threads w))
                 (settle transaction_id ε w)) as Hw'.
  { subst w'. unfold schedule. rewrite Hi, resume_sleeping.
    cbn beta iota zeta. by rewrite settle_threads. }
  assert (transactions w' = transactions w) as Hc.
  { rewrite Hw'. cbn [transactions set_threads].
    by eapply settle_prevented. }
  assert (threads w' = <[i := Return tt]> (threads w)) as Hts
    by by rewrite Hw'.
  cut (stranded transaction_id j d (after tr' w'));
    [by intros (_ & _ & _ & ? & _)|].
  apply stranded_after. unfold stranded, records. rewrite Hc.
  split_and!; try done.
  - apply (proj2 (handle_step (Schedule i ε) w Hw)).
  - intros q Hq Hpend. rewrite Hts in Hq.
    apply list_elem_of_lookup_1 in Hq as [m Hm].
    apply list_lookup_insert_Some in Hm as [(_ & <- & _)|[Hne Hm]];
      [by destruct (returned_not_pending transaction_id)|].
    apply Hne. symmetry.
    by apply (Hone transaction_id m i q (sleeping_worker transaction_id));
      [..|right].
Qed.

(** The update of the worker of [txn_abc] fails; the webhook is sent again
    and every thread is scheduled again: the record is [PROCESSING]. *)
Lemma failed_worker_is_not_retried_witness :
  let e := OtherException "AutoReconnect" "connection closed" in
  let w0 := after [Startup (calm (sample_time 0 0))] initial_world in
  let w := after (drop 1 sample_run_sleeping) w0 in
  let w' := schedule 0 (failing_with is_update e (sample_time 0 31)) w in
  let tr' :=
    [Webhook (sample_request "txn_abc" "user" 1500) (calm (sample_time 1 0));
     Schedule 0 (calm (sample_time 1 30));
     Schedule 1 (calm (sample_time 1 30))] in
  ∃ j d, records (after tr' w') !! j = Some d
         ∧ d !! "status" = Some (VStr "PROCESSING").
Proof.
  intros e w0 w w' tr'.
  destruct (failed_worker_is_not_retried (calm (sample_time 0 0))
              (drop 1 sample_run_sleeping) 0 "txn_abc"
              (failing_with is_update e (sample_time 0 31)) e)
    as (j & d & _ & _ & Hstatus & Hstays); [reflexivity..|].
  exists j, d. split; [exact (Hstays tr')|exact Hstatus].
Defined.

(** ** The status query is an observer *)

(** What an event does to the collection and the pool, and its reply,
    depend on the collection and the pool alone. *)
Lemma handle_same_store ev w1 w2 :
  workers_only w1 →
  same_store w1 w2 →
  (handle ev w1).1 = (handle ev w2).1
  ∧ same_store (handle ev w1).2 (handle ev w2).2.
Proof.
  intros Hw [Hc Hts]. unfold same_store.
  destruct ev as [ε|webhook_data ε|transaction_id ε|i ε].
  - cbn [handle]. unfold startup. rewrite !run_startup_event. cbn [fst snd].
    unfold create_indexes. rewrite Hc.
    repeat case_match; cbn; by rewrite ?Hc, ?Hts.
  - cbn [handle]. unfold serve. rewrite !run_receive_webhook.
    unfold intake, webhook_failed. rewrite Hc, Hts.
    repeat case_match; simplify_eq; cbn; by rewrite ?Hc, ?Hts.
  - cbn [handle]. unfold get_transaction, serve.
    rewrite !run_get_transaction_status.
    unfold lookup. rewrite Hc.
    repeat case_match; simplify_eq; cbn; by rewrite ?Hc, ?Hts.
  - cbn [handle fst snd]. split; [done|].
    unfold schedule. rewrite <- Hts.
    destruct (threads w1 !! i) as [p|] eqn:Hi; [|done].
    assert (∃ transaction_id, worker_of transaction_id p)
      as [transaction_id [->|[->| ->]]].
    { unfold workers_only in Hw. rewrite Forall_lookup in Hw. by eapply Hw. }
    + rewrite !resume_started. cbn. by rewrite Hc, Hts.
    + rewrite !resume_sleeping. cbn beta iota zeta.
      rewrite !settle_threads.
      cbn [transactions threads set_threads]. rewrite Hts.
      split; [|done].
      unfold settle, worker_failed. rewrite Hc.
      repeat case_match; simplify_eq; cbn; by rewrite ?Hc.
    + cbn [resume]. cbn. by rewrite Hc, Hts.
Qed.

Lemma without_queries_same tr : ∀ w1 w2,
  workers_only w1 →
  same_store w1 w2 →
  same_store (after (without_queries tr) w1) (after tr w2)
  ∧ replies (without_queries tr) w1
    = filter (λ r, is_status_reply r = false) (replies tr w2).
Proof.
  induction tr as [|ev tr IH]; intros w1 w2 Hw Hsame; [done|].
  rewrite after_cons, replies_cons.
  destruct (is_status ev) eqn:Hev.
  - unfold without_queries. rewrite filter_cons_False by by rewrite Hev.
    fold (without_queries tr).
    destruct ev as [| |transaction_id ε|]; try done.
    assert (same_store w1 (handle (Status transaction_id ε) w2).2) as Hsame'.
    { destruct Hsame as [Hc Hts]. unfold same_store. rewrite Hc, Hts.
      cbn [handle]. unfold get_transaction, serve.
      rewrite run_get_transaction_status.
      pose proof (lookup_frame transaction_id ε w2) as [Hc' Hts'].
      destruct (lookup transaction_id ε w2) as [[e|a] w'];
        [destruct e|]; cbn in *; by rewrite Hc', Hts'. }
    destruct (IH w1 _ Hw Hsame') as [Hstore ->]. split; [done|].
    rewrite filter_cons_False; [done|].
    cbn [handle]. by destruct (get_transaction _ _ _).
  - unfold without_queries. rewrite filter_cons_True by done.
    fold (without_queries tr). rewrite after_cons, replies_cons.
    destruct (handle_same_store ev w1 w2 Hw Hsame) as [Hreply Hsame'].
    destruct (handle_step ev w1 Hw) as [_ Hw'].
    destruct (IH _ _ Hw' Hsame') as [Hstore ->]. split; [done|].
    rewrite filter_cons_True; [by rewrite Hreply|].
    destruct ev as [ε|webhook_data ε| |i ε]; try done; cbn [handle].
    + by destruct (startup _ _).
    + by destruct (serve _ _ _ _).
Qed.

(** A status query is an observer: when the queries are taken out of a
    run, the collection and the pool of threads at the end are the same,
    and so are the replies to the other events. *)
Theorem status_queries_leave_no_trace (tr : list event) :
  transactions (after (without_queries tr) initial_world)
  = transactions (after tr initial_world)
  ∧ threads (after (without_queries tr) initial_world)
    = threads (after tr initial_world)
  ∧ replies (without_queries tr) initial_world
    = filter (λ r, is_status_reply r = false) (replies tr initial_world).
Proof.
  destruct (without_queries_same tr initial_world initial_world)
    as [[Hc Hts] Hreplies]; [apply workers_only_initial|done|done].
Qed.

(** ** A worker that does not fail *)

Lemma first_is_the_record transaction_id (docs : list dict) j d :
  NoDup (Collection.keys docs) →
  docs !! j = Some d →
  Collection.key d = VStr transaction_id →
  list_find (Collection.matches (by_transaction_id transaction_id)) docs
  = Some (j, d).
Proof.
  intros Hnd Hj Hkey. apply list_find_Some. split_and!; [done|..].
  - by apply matches_by_transaction_id.
  - intros k d' Hk Hlt Hm%matches_by_transaction_id.
    assert (k = j); [|lia].
    apply (NoDup_lookup _ k j (VStr transaction_id) Hnd);
      unfold Collection.keys; rewrite list_lookup_fmap.
    + by rewrite Hk, <- Hm.
    + by rewrite Hj, <- Hkey.
Qed.

(** The unique index is there from the start. Then a worker that wakes up
    when nothing fails always finds its record, [PROCESSING]: it sets it
    to [PROCESSED] with the timestamp of its reading of the clock and logs
    the success; the warning "Failed to update transaction" is not
    logged. *)
Theorem calm_worker_settles_its_record (ε0 : env) (tr : list event)
  (i : nat) (transaction_id : string) (now : datetime) :
  let w0 := after [Startup ε0] initial_world in
  let w := after tr w0 in
  let w' := schedule i (calm now) w in
  unique_index (transactions w0) = true →
  threads w !! i = Some (sleeping_worker transaction_id) →
  log w'
  = log w
    ++ [(INFO, "Transaction processed successfully: " +:+ transaction_id)]
  ∧ ∃ j d,
      records w !! j = Some d
      ∧ awaited transaction_id d
      ∧ records w' = <[j := processed now ∪ d]> (records w)
      ∧ (processed now ∪ d) !! "status" = Some (VStr "PROCESSED")
      ∧ (processed now ∪ d) !! "processed_at" = Some (VStr (timestamp now)).
Proof.
  intros w0 w w' Hu Hi.
  pose proof (one_worker_each_indexed ε0 tr Hu)
    as (Hw & Huw & Hnd & Hrec & Hone).
  fold w0 in Hw, Huw, Hnd, Hrec, Hone. fold w in Hw, Huw, Hnd, Hrec, Hone.
  destruct (Hrec transaction_id (sleeping_worker transaction_id))
    as (d & Hd & Hkey & Hstatus & Hat);
    [by eapply list_elem_of_lookup_2|by right|].
  apply list_elem_of_lookup_1 in Hd as [j Hj].
  pose proof (first_is_the_record transaction_id _ j d Hnd Hj Hkey) as Hfind.
  assert (w' = set_threads (<[i := Return tt]> (threads w))
                 (settle transaction_id (calm now) w)) as ->.
  { subst w'. unfold schedule. rewrite Hi, resume_sleeping.
    cbn beta iota zeta. by rewrite settle_threads. }
  assert (processed now ∪ d ≠ d) as Hne.
  { intros [Hs _]%processed_noop. congruence. }
  split.
  - cbn [log set_threads]. rewrite settle_calm_log, Hfind.
    by rewrite bool_decide_eq_false_2.
  - exists j, d. split_and!; [done|done| |apply processed_status
                              |apply processed_processed_at].
    change (records (set_threads ?ts ?v)) with (records v).
    by rewrite (proj2 (settle_calm _ _ _)), Hfind.
Qed.

(** On the sample run the worker wakes up at 09:00:31. *)
Lemma calm_worker_settles_its_record_witness :
  let w0 := after [Startup (calm (sample_time 0 0))] initial_world in
  let w := after (drop 1 sample_run_sleeping) w0 in
  let w' := schedule 0 (calm (sample_time 0 31)) w in
  log w' = log w ++ [(INFO, "Transaction processed successfully: txn_abc")].
Proof.
  intros w0 w w'.
  exact (proj1 (calm_worker_settles_its_record (calm (sample_time 0 0))
                  (drop 1 sample_run_sleeping) 0 "txn_abc"
                  (sample_time 0 31) eq_refl eq_refl)).
Defined.

(** ** A connection that cannot be closed *)

(** The update of a worker has changed the record, and then [close] raises:
    the record is [PROCESSED] all the same, and the log has the success
    followed by an error for the same transaction. *)
Theorem close_failure_after_update (transaction_id : string) (ε : env)
  (w : world) (j : nat) (d : dict) (e : exn) :
  let w' := (resume (sleeping_worker transaction_id) ε w).2 in
  raised ε (calls_to_update transaction_id (utcnow ε)) = None →
  fault ε Close = Some e →
  list_find (Collection.matches (by_transaction_id transaction_id))
    (records w) = Some (j, d) →
  d !! "status" ≠ Some (VStr "PROCESSED") →
  records w' = <[j := processed (utcnow ε) ∪ d]> (records w)
  ∧ log w'
    = log w
      ++ [(INFO, "Transaction processed successfully: " +:+ transaction_id);
          (ERROR,
           "Error processing transaction " +:+ transaction_id +:+ ": "
           +:+ str e)].
Proof.
  intros w' Hcalm Hclose Hfind Hstatus. subst w'.
  rewrite resume_sleeping. cbn [snd].
  revert Hcalm. unfold settle, worker_failed, calls_to_update, worker_calls.
  cbn [take raised].
  destruct (fault ε (TimeSleep 30)); [done|].
  destruct (fault ε (Connect _)); [done|].
  destruct (fault ε (UpdateOne _ _)); [done|]. intros _.
  unfold Collection.update_one. fold (records w). rewrite Hfind.
  rewrite bool_decide_eq_false_2.
  2:{ intros [Hs _]%processed_noop. congruence. }
  rewrite processed_key.
  rewrite (bool_decide_eq_false_2 (Collection.key d ≠ Collection.key d))
    by (intros H; by apply H).
  rewrite andb_false_r. cbn [andb modified_count Nat.ltb Nat.leb].
  rewrite Hclose. cbn. by rewrite <- app_assoc.
Qed.

(** On the sample run, with a [close] that raises. *)
Lemma close_failure_after_update_witness :
  let e := OtherException "OSError" "bad file descriptor" in
  let is_close c := match c with Close => true | _ => false end in
  let w := after sample_run_sleeping initial_world in
  let w' :=
    (resume (sleeping_worker "txn_abc")
       (failing_with is_close e (sample_time 0 31)) w).2 in
  (∃ d, records w' !! 0 = Some d ∧ d !! "status" = Some (VStr "PROCESSED"))
  ∧ last (log w')
    = Some (ERROR, "Error processing transaction txn_abc: bad file descriptor").
Proof.
  intros e is_close w w'.
  destruct (close_failure_after_update "txn_abc"
              (failing_with is_close e (sample_time 0 31)) w 0
              (default ∅ (records w !! 0)) e)
    as [Hrecords Hlog]; [reflexivity|reflexivity|reflexivity|discriminate|].
  fold w' in Hrecords, Hlog. split.
  - rewrite Hrecords. eexists. split; [reflexivity|apply processed_status].
  - rewrite Hlog. reflexivity.
Defined.

(** ** Fields the model does not have *)

(** A key of the body that is no field of [WebhookRequest] is ignored: the
    request is answered, and the collection, the pool and the log are
    left, as without it, so the key is not stored. *)
Theorem unknown_field_ignored (str_as_float : string → option float)
  (body : dict) (k : string) (v : value) (ε : env) (w : world) :
  k ∉ webhook_fields →
  post_webhook str_as_float (<[k := v]> body) ε w
  = post_webhook str_as_float body ε w.
Proof.
  intros Hk. unfold webhook_fields in Hk.
  apply not_elem_of_cons in Hk as [H1 Hk].
  apply not_elem_of_cons in Hk as [H2 Hk].
  apply not_elem_of_cons in Hk as [H3 Hk].
  apply not_elem_of_cons in Hk as [H4 Hk].
  apply not_elem_of_cons in Hk as [H5 _].
  unfold post_webhook, WebhookRequest.validate, check_str, check_gt0,
    check_length.
  by rewrite !lookup_insert_ne.
Qed.

(** A body with a [note]. *)
Lemma unknown_field_ignored_witness :
  let ε := calm (sample_time 0 1) in
  post_webhook sample_str_as_float
    (<["note" := VStr "urgent"]> (sample_body 1500 "INR")) ε initial_world
  = post_webhook sample_str_as_float (sample_body 1500 "INR") ε
      initial_world.
Proof.
  intros ε.
  apply (unknown_field_ignored sample_str_as_float
           (sample_body 1500 "INR") "note" (VStr "urgent") ε initial_world).
  unfold webhook_fields.
  repeat (apply not_elem_of_cons; split; [done|]). apply not_elem_of_nil.
Defined.
